(** * SmartKitchen: expiry classification, alerting and recipe rescue

    A shallow embedding of the decision logic of [frontend/src/App.js]
    (the utility functions [getDaysUntilExpiry] and [getExpiryStatus] and
    the mount effect that schedules the notification refresh), together
    with the server-side Notification Generator and Recipe Matcher, which
    the front end only calls through [/api/notifications/expiring] and
    [/api/recipes/expiring].  The second half covers the expiry badge, the
    share text and the handlers of the item and waste forms. *)

From Stdlib Require Import ZArith QArith Qround Lia Ascii String.
From stdpp Require Import base option list strings pretty gmap sorting.

Close Scope Q_scope.
Local Open Scope Z_scope.

(** ** The JavaScript values the program computes with *)

Module JS.

(** A Number.  The finite doubles the program meets are time values
    (integers of magnitude below 2^53), their differences, one quotient
    by the constant 86400000 and small integers; they are kept as exact
    rationals.  For |a| < 2^53 the correctly rounded double a / 86400000
    is an integer only when the exact quotient is one (a quotient that is
    not an integer lies at least 1/86400000 from the next integer, more
    than half an ulp at magnitude 2^27), so [Math_ceil] of the exact
    quotient is what the double computation returns.  NaN is kept, since
    an Invalid Date produces it; the infinities and the negative zero
    never decide a comparison of the program and are left out. *)
Inductive Number : Type :=
| Num (q : Q)
| NaN.

Definition of_Z (z : Z) : Number := Num (inject_Z z).

(** [a - b] *)
Definition sub (a b : Number) : Number :=
  match a, b with
  | Num x, Num y => Num (x - y)%Q
  | _, _ => NaN
  end.

(** [a / b]; the program divides by a non-zero constant only, a zero
    divisor (an infinity or NaN in JavaScript) is mapped to NaN. *)
Definition div (a b : Number) : Number :=
  match a, b with
  | Num x, Num y => if Qeq_bool y 0 then NaN else Num (x / y)%Q
  | _, _ => NaN
  end.

(** [Math.ceil(a)] *)
Definition Math_ceil (a : Number) : Number :=
  match a with
  | Num x => Num (inject_Z (Qceiling x))
  | NaN => NaN
  end.

(** [a <= b]: false as soon as one side is NaN. *)
Definition le (a b : Number) : bool :=
  match a, b with
  | Num x, Num y => Qle_bool x y
  | _, _ => false
  end.

(** [a < b] *)
Definition lt (a b : Number) : bool :=
  match a, b with
  | Num x, Num y => Qle_bool x y && negb (Qeq_bool x y)
  | _, _ => false
  end.

(** What an [expiry_date] field holds: the form keeps a string (['']
    until the user picks a date), an item read from the store carries a
    string, [null], or no such property at all. *)
Inductive Value : Type :=
| Undefined
| Null
| Str (s : string).

(** ToBoolean: [undefined], [null] and the empty string are falsy. *)
Definition truthy (v : Value) : bool :=
  match v with
  | Undefined | Null => false
  | Str s => negb (String.eqb s "")
  end.

(** A Date object is its time value: milliseconds since the epoch, or
    NaN for an Invalid Date. *)
Record Date : Type := mkDate { timeValue : Number }.

End JS.

(** ** The runtime the component lives in

    The wall clock, the table of interval timers and the log of requests
    sent to the back end, each stamped with the clock reading at which it
    was issued. *)

Inductive Callback : Type :=
| CbFetchNotifications.

Record Timer : Type := mkTimer {
  timerId : nat;
  callback : Callback;
  period : Z;
  due : Z
}.

Record Runtime : Type := mkRuntime {
  clock : Z;
  timers : list Timer;
  nextTimerId : nat;
  requests : list (Z * string)
}.

(** Computations that read and update the runtime. *)
Definition M (A : Type) : Type := Runtime → A * Runtime.

Global Instance M_ret : MRet M := λ A (a : A) w, (a, w).

Global Instance M_bind : MBind M :=
  λ A B (k : A → M B) (m : M A) w, let '(a, w') := m w in k a w'.

Definition evalM {A} (m : M A) (w : Runtime) : A := fst (m w).
Definition execM {A} (m : M A) (w : Runtime) : Runtime := snd (m w).

(** A page that has just been loaded at clock reading [t]. *)
Definition initial (t : Z) : Runtime :=
  {| clock := t; timers := []; nextTimerId := 0; requests := [] |}.

(** The four results of [getExpiryStatus]. *)
Inductive Status : Type :=
| StNone
| StExpired
| StExpiring
| StFresh.

(** The string the source returns for each status. *)
Definition Status_string (s : Status) : string :=
  match s with
  | StNone => "none"
  | StExpired => "expired"
  | StExpiring => "expiring"
  | StFresh => "fresh"
  end.

Section App.

(** [Date.parse]: the time value of a date string, [None] when the
    string is not a date (the Date is then invalid).  The grammar the
    engine accepts beyond the ISO format is its own; the functions below
    are stated over any parser. *)
Variable Date_parse : string → option Z.

(** [new Date(v)] *)
Definition new_Date_of (v : JS.Value) : JS.Date :=
  match v with
  | JS.Str s =>
      match Date_parse s with
      | Some t => JS.mkDate (JS.of_Z t)
      | None => JS.mkDate JS.NaN
      end
  | JS.Null => JS.mkDate (JS.of_Z 0)
  | JS.Undefined => JS.mkDate JS.NaN
  end.

(** [new Date()]: reads the wall clock. *)
Definition new_Date : M JS.Date :=
  λ w, (JS.mkDate (JS.of_Z (clock w)), w).

(** The result is [None] for JavaScript's [null]. *)
Definition getDaysUntilExpiry (expiryDate : JS.Value) : M (option JS.Number) :=
  if negb (JS.truthy expiryDate) then mret None
  else
    let expiry := new_Date_of expiryDate in
    today ← new_Date;
    let diffTime := JS.sub (JS.timeValue expiry) (JS.timeValue today) in
    let diffDays :=
      JS.Math_ceil (JS.div diffTime (JS.of_Z (1000 * 60 * 60 * 24))) in
    mret (Some diffDays).

Definition getExpiryStatus (expiryDate : JS.Value) : M Status :=
  days ← getDaysUntilExpiry expiryDate;
  match days with
  | None => mret StNone
  | Some d =>
      if JS.le d (JS.of_Z 0) then mret StExpired
      else if JS.le d (JS.of_Z 3) then mret StExpiring
      else mret StFresh
  end.

End App.

(** ** A date parser for the ISO forms the application produces

    [toISOString] writes [YYYY-MM-DDTHH:mm:ss.sssZ] and the date input of
    the add-item form writes [YYYY-MM-DD]; both are read as UTC. *)

Module ISO.

(** Exactly [n] decimal digits, most significant first. *)
Fixpoint digits (n : nat) (s : string) : option (Z * string) :=
  match n with
  | O => Some (0, s)
  | S n' =>
      match s with
      | String c s' =>
          d ← Ascii.is_nat c;
          '(v, r) ← digits n' s';
          Some (Z.of_nat d * 10 ^ Z.of_nat n' + v, r)
      | EmptyString => None
      end
  end.

Definition expect (c : Ascii.ascii) (s : string) : option string :=
  match s with
  | String c' s' => if Ascii.eqb c c' then Some s' else None
  | EmptyString => None
  end.

Definition is_leap (y : Z) : bool :=
  (y mod 4 =? 0) && (negb (y mod 100 =? 0) || (y mod 400 =? 0)).

Definition days_in_month (y m : Z) : Z :=
  if m =? 2 then (if is_leap y then 29 else 28)
  else if (m =? 4) || (m =? 6) || (m =? 9) || (m =? 11) then 30
  else 31.

(** Days from 1970-01-01 to the civil date [y]-[m]-[d]. *)
Definition days_from_civil (y m d : Z) : Z :=
  let y' := if m <=? 2 then y - 1 else y in
  let era := y' / 400 in
  let yoe := y' - era * 400 in
  let mp := (m + 9) mod 12 in
  let doy := (153 * mp + 2) / 5 + d - 1 in
  let doe := yoe * 365 + yoe / 4 - yoe / 100 + doy in
  era * 146097 + doe - 719468.

(** [HH:mm:ss], an optional [.sss], then [Z] and nothing more. *)
Definition time_of_day (s : string) : option Z :=
  '(hh, s) ← digits 2 s;
  s ← expect ":"%char s;
  '(mm, s) ← digits 2 s;
  s ← expect ":"%char s;
  '(ss, s) ← digits 2 s;
  '(ms, s) ← match expect "."%char s with
             | Some s' => digits 3 s'
             | None => Some (0, s)
             end;
  s ← expect "Z"%char s;
  if String.eqb s "" && (hh <? 24) && (mm <? 60) && (ss <? 60)
  then Some (((hh * 60 + mm) * 60 + ss) * 1000 + ms)
  else None.

Definition parse (s : string) : option Z :=
  '(y, s) ← digits 4 s;
  s ← expect "-"%char s;
  '(m, s) ← digits 2 s;
  s ← expect "-"%char s;
  '(d, s) ← digits 2 s;
  if (1 <=? m) && (m <=? 12) && (1 <=? d) && (d <=? days_in_month y m)
  then
    let day := days_from_civil y m d * 86400000 in
    match s with
    | EmptyString => Some day
    | String c s' =>
        if Ascii.eqb c "T"%char then t ← time_of_day s'; Some (day + t)
        else None
    end
  else None.

End ISO.

(** The add-item form as it is first shown ([useState] of [itemForm]) and
    as [resetForm] restores it. *)
Record ItemForm : Type := mkItemForm {
  form_name : string;
  form_quantity : Z;
  form_unit : string;
  form_category : string;
  form_expiry_date : JS.Value;
  form_barcode : string
}.

Definition itemForm_initial : ItemForm :=
  {| form_name := "";
     form_quantity := 1;
     form_unit := "pieces";
     form_category := "other";
     form_expiry_date := JS.Str "";
     form_barcode := "" |}.

(** ** The notification refresh: the mount effect and the timers *)

(** [api.get(url)]: the request leaves at the current clock reading.  The
    response arrives in a later task and only fills view state. *)
Definition api_get (url : string) : M unit :=
  λ w, (tt, {| clock := clock w;
               timers := timers w;
               nextTimerId := nextTimerId w;
               requests := requests w ++ [(clock w, url)] |}).

Definition fetchInventory : M unit := api_get "/api/inventory".
Definition fetchRecipes : M unit := api_get "/api/recipes".
Definition fetchChallenges : M unit := api_get "/api/challenges".
Definition fetchDeals : M unit := api_get "/api/deals".
Definition fetchWasteItems : M unit := api_get "/api/waste".
Definition fetchNotifications : M unit := api_get "/api/notifications/expiring".

Definition run_callback (cb : Callback) : M unit :=
  match cb with
  | CbFetchNotifications => fetchNotifications
  end.

(** [setInterval(cb, delay)]: a new timer, first due [delay] ms from now;
    the result is its handle. *)
Definition setInterval (cb : Callback) (delay : Z) : M nat :=
  λ w, let h := nextTimerId w in
       (h, {| clock := clock w;
              timers := timers w ++ [mkTimer h cb delay (clock w + delay)];
              nextTimerId := S h;
              requests := requests w |}).

(** [clearInterval(h)] *)
Definition clearInterval (h : nat) : M unit :=
  λ w, (tt, {| clock := clock w;
               timers := filter (λ t, timerId t ≠ h) (timers w);
               nextTimerId := nextTimerId w;
               requests := requests w |}).

(** The effect run when the component mounts.  Its result is the cleanup
    React runs when the component unmounts. *)
Definition mountEffect : M (M unit) :=
  fetchInventory;;
  fetchRecipes;;
  fetchChallenges;;
  fetchDeals;;
  fetchWasteItems;;
  fetchNotifications;;
  interval ← setInterval CbFetchNotifications 300000;
  mret (clearInterval interval).

(** The timer that fires next: the least due time, the older timer first
    among equals. *)
Fixpoint earliest (ts : list Timer) : option Timer :=
  match ts with
  | [] => None
  | t :: ts' =>
      match earliest ts' with
      | Some u => if due t <=? due u then Some t else Some u
      | None => Some t
      end
  end.

Definition reschedule (h : nat) (ts : list Timer) : list Timer :=
  (λ t, if Nat.eqb (timerId t) h
        then mkTimer (timerId t) (callback t) (period t) (due t + period t)
        else t) <$> ts.

(** One turn of the event loop: time passes until the next timer is due,
    its callback runs and the timer is set one period later.  Without
    timers nothing is left to happen. *)
Definition tick : M unit :=
  λ w, match earliest (timers w) with
       | None => (tt, w)
       | Some t =>
           run_callback (callback t)
             {| clock := Z.max (clock w) (due t);
                timers := reschedule (timerId t) (timers w);
                nextTimerId := nextTimerId w;
                requests := requests w |}
       end.

Fixpoint ticks (n : nat) : M unit :=
  match n with
  | O => mret tt
  | S n' => tick;; ticks n'
  end.

(** The clock readings at which [url] was requested, oldest first. *)
Definition request_times (url : string) (w : Runtime) : list Z :=
  fst <$> filter (λ r, snd r = url) (requests w).

(** The runtime [k] periods after the component mounted on a page loaded
    at [t0]: the requests of the mount, one notification request per
    elapsed period, and the interval timer due one period later. *)
Definition mounted (t0 : Z) (k : nat) : Runtime :=
  {| clock := t0 + 300000 * Z.of_nat k;
     timers := [mkTimer 0 CbFetchNotifications 300000
                  (t0 + 300000 * Z.of_nat (S k))];
     nextTimerId := 1;
     requests :=
       [(t0, "/api/inventory"); (t0, "/api/recipes"); (t0, "/api/challenges");
        (t0, "/api/deals"); (t0, "/api/waste");
        (t0, "/api/notifications/expiring")]
       ++ ((λ j, (t0 + 300000 * Z.of_nat j, "/api/notifications/expiring"))
             <$> seq 1 k) |}.

(** ** The data model of the decision core *)

(** Modelled from the spec: the units of measure of an InventoryItem
    (section 3); the store that validates them is the back end's. *)
Inductive Unit : Type := Pieces | Kg | Liters | Packages | Bottles.

(** Modelled from the spec: the food categories of an InventoryItem. *)
Inductive Category : Type :=
  Fruits | Vegetables | Dairy | Meat | Bakery | Pantry | Frozen | Other.

(** Modelled from the spec: an InventoryItem as the back end stores it;
    [item_expiryDate] is the [expiry_date] value the front end reads. *)
Record InventoryItem : Type := mkItem {
  item_id : string;
  item_name : string;
  item_quantity : Z;
  item_unit : Unit;
  item_category : Category;
  item_expiryDate : JS.Value;
  item_barcode : option string;
  item_addedDate : Z
}.

(** Modelled from the spec: the difficulty of a Recipe. *)
Inductive Difficulty : Type := Easy | Medium | Hard.

(** Modelled from the spec: a Recipe of the back end's catalog;
    [recipe_expiringIngredients] is absent until the Recipe Matcher fills
    it. *)
Record Recipe : Type := mkRecipe {
  recipe_id : string;
  recipe_name : string;
  recipe_prepTimeMinutes : Z;
  recipe_difficulty : Difficulty;
  recipe_category : string;
  recipe_ingredients : list string;
  recipe_instructions : list string;
  recipe_affiliateLinks : gmap string string;
  recipe_expiringIngredients : option (list string)
}.

(** Modelled from the spec: the urgency of an Alert. *)
Inductive Urgency : Type := UHigh | UMedium.

(** Modelled from the spec: an Alert of the back end's Notification
    Generator. *)
Record Alert : Type := mkAlert {
  alert_id : nat;
  alert_itemId : string;
  alert_message : string;
  alert_urgency : Urgency
}.

(** ** Names as matching keys *)

(** Modelled from the spec: the case folding and the trimming behind the
    normal form of a name in the Recipe Matcher of the back end. *)
Definition to_lower (c : ascii) : ascii :=
  let n := N_of_ascii c in
  if ((65 <=? n) && (n <=? 90))%N then ascii_of_N (n + 32) else c.

Fixpoint lower (s : string) : string :=
  match s with
  | EmptyString => EmptyString
  | String c s' => String (to_lower c) (lower s')
  end.

Fixpoint trim_left (s : string) : string :=
  match s with
  | EmptyString => EmptyString
  | String c s' => if Ascii.is_space c then trim_left s' else s
  end.

Definition trim (s : string) : string :=
  String.rev (trim_left (String.rev (trim_left s))).

(** Modelled from the spec: the normal form of a name, "normalized
    (case-insensitive, trimmed)" in the Recipe Matcher of the back end. *)
Definition normalize (s : string) : string := lower (trim s).

(** ** The decision core: classifier, Notification Generator, Recipe Matcher *)

Section Core.

Variable Date_parse : string → option Z.

(** The text of an alert, a function of the item's name, its status and
    its remaining days; the wording is the back end's. *)
Variable alert_text : string → Status → JS.Number → string.

(** [classify(expiryDate, now)]: [getExpiryStatus] run at clock reading
    [now]. *)
Definition classify (expiryDate : JS.Value) (now : Z) : Status :=
  evalM (getExpiryStatus Date_parse expiryDate) (initial now).

(** [daysRemaining(expiryDate, now)]: [getDaysUntilExpiry] run at clock
    reading [now]. *)
Definition daysRemaining (expiryDate : JS.Value) (now : Z) : option JS.Number :=
  evalM (getDaysUntilExpiry Date_parse expiryDate) (initial now).

(** Modelled from the spec: step 3 of the Notification Generator of the
    back end, the urgency of a status; [None] for the statuses that
    raise no alert. *)
Definition urgency_of (st : Status) (days : JS.Number) : option Urgency :=
  match st with
  | StExpired => Some UHigh
  | StExpiring => Some (if JS.le days (JS.of_Z 1) then UHigh else UMedium)
  | StNone | StFresh => None
  end.

(** Modelled from the spec: an item that raises an alert in the
    Notification Generator of the back end, with what the alert is built
    from. *)
Record Candidate : Type := mkCandidate {
  cand_item : InventoryItem;
  cand_status : Status;
  cand_days : JS.Number;
  cand_urgency : Urgency
}.

(** Modelled from the spec: steps 1 to 3 of the Notification Generator of
    the back end for one item. *)
Definition candidate (now : Z) (it : InventoryItem) : option Candidate :=
  let st := classify (item_expiryDate it) now in
  days ← daysRemaining (item_expiryDate it) now;
  u ← urgency_of st days;
  Some (mkCandidate it st days u).

(** Modelled from the spec: step 6 of the Notification Generator of the
    back end, "ascending by days, ties broken by item id ascending". *)
Definition cand_leb (a b : Candidate) : bool :=
  JS.lt (cand_days a) (cand_days b)
  || (negb (JS.lt (cand_days b) (cand_days a))
      && String.leb (item_id (cand_item a)) (item_id (cand_item b))).

(** Modelled from the spec: steps 4 and 5 of the Notification Generator
    of the back end; the alert's own id is its rank in the run. *)
Definition alert_of (i : nat) (c : Candidate) : Alert :=
  {| alert_id := i;
     alert_itemId := item_id (cand_item c);
     alert_message :=
       alert_text (item_name (cand_item c)) (cand_status c) (cand_days c);
     alert_urgency := cand_urgency c |}.

(** Modelled from the spec: [generate(items, now)], the Notification
    Generator of the back end (served at [/api/notifications/expiring]). *)
Definition generate (items : list InventoryItem) (now : Z) : list Alert :=
  imap alert_of (merge_sort (λ a b, cand_leb a b) (omap (candidate now) items)).

(** Modelled from the spec: the statuses at risk in the Recipe Matcher of
    the back end, expired and expiring. *)
Definition at_risk (st : Status) : bool :=
  match st with
  | StExpired | StExpiring => true
  | StNone | StFresh => false
  end.

(** Modelled from the spec: the items behind step 1 of the Recipe
    Matcher of the back end. *)
Definition at_risk_items (items : list InventoryItem) (now : Z) : list InventoryItem :=
  filter (λ it, at_risk (classify (item_expiryDate it) now)) items.

(** Modelled from the spec: step 1 of the Recipe Matcher of the back
    end, the set of at-risk ingredient names. *)
Definition at_risk_names (items : list InventoryItem) (now : Z) : gset string :=
  list_to_set (normalize ∘ item_name <$> at_risk_items items now).

(** Modelled from the spec: step 3 of the Recipe Matcher of the back
    end, in the recipe's ingredient order (step 5). *)
Definition intersection (r : Recipe) (names : gset string) : list string :=
  filter (λ n, n ∈ names) (normalize <$> recipe_ingredients r).

(** Modelled from the spec: steps 4 and 5 of the Recipe Matcher of the
    back end for one recipe. *)
Definition annotate (names : gset string) (r : Recipe) : option Recipe :=
  match intersection r names with
  | [] => None
  | common =>
      Some {| recipe_id := recipe_id r;
              recipe_name := recipe_name r;
              recipe_prepTimeMinutes := recipe_prepTimeMinutes r;
              recipe_difficulty := recipe_difficulty r;
              recipe_category := recipe_category r;
              recipe_ingredients := recipe_ingredients r;
              recipe_instructions := recipe_instructions r;
              recipe_affiliateLinks := recipe_affiliateLinks r;
              recipe_expiringIngredients := Some common |}
  end.

(** The least of a list of numbers, [None] for the empty list. *)
Definition least (ds : list JS.Number) : option JS.Number :=
  foldr (λ d acc, match acc with
                  | Some m => if JS.lt d m then Some d else Some m
                  | None => Some d
                  end) None ds.

(** Modelled from the spec: rank (b) of the Recipe Matcher of the back
    end, the least remaining days among the at-risk items named by the
    recipe's expiring ingredients. *)
Definition min_days (items : list InventoryItem) (now : Z) (r : Recipe) : option JS.Number :=
  least (omap (λ it,
                 if decide (normalize (item_name it)
                            ∈ default [] (recipe_expiringIngredients r))
                 then daysRemaining (item_expiryDate it) now
                 else None)
              (at_risk_items items now)).

(** Modelled from the spec: step 6 of the Recipe Matcher of the back
    end: more expiring ingredients first, then the sooner expiry, then
    the smaller recipe id. *)
Definition rank_leb (items : list InventoryItem) (now : Z) (a b : Recipe) : bool :=
  let na := length (default [] (recipe_expiringIngredients a)) in
  let nb := length (default [] (recipe_expiringIngredients b)) in
  if Nat.ltb nb na then true
  else if Nat.ltb na nb then false
  else
    match min_days items now a, min_days items now b with
    | Some x, Some y =>
        JS.lt x y || (negb (JS.lt y x) && String.leb (recipe_id a) (recipe_id b))
    | Some _, None => true
    | None, Some _ => false
    | None, None => String.leb (recipe_id a) (recipe_id b)
    end.

(** Modelled from the spec: [match(items, recipes, now)], the Recipe
    Matcher of the back end (served at [/api/recipes/expiring]). *)
Definition match_recipes (items : list InventoryItem) (recipes : list Recipe) (now : Z) : list Recipe :=
  let names := at_risk_names items now in
  if decide (names = ∅) then []
  else merge_sort (λ a b, rank_leb items now a b) (omap (annotate names) recipes).

(** A recipe of the catalog is matched when the output holds its
    annotated copy, the recipe with the same id. *)
Definition matched (r : Recipe) (out : list Recipe) : Prop :=
  ∃ a, a ∈ out ∧ recipe_id a = recipe_id r.

End Core.

(** ** Sample data

    The inventory and the catalog of the scenarios: milk two days from its
    expiry date, eggs on it, rice that does not expire; read at
    2025-01-10T00:00:00Z. *)

Definition sample_now : Z := 1736467200000.

Definition sample_alert_text (name : string) (st : Status) (days : JS.Number) : string :=
  match st with
  | StExpired => name +:+ " has expired"
  | _ => name +:+ " expires soon"
  end.

Definition milk : InventoryItem :=
  mkItem "item-2" "Milk" 1 Liters Dairy (JS.Str "2025-01-12") None 1736000000000.

Definition eggs : InventoryItem :=
  mkItem "item-1" "Eggs" 6 Pieces Dairy (JS.Str "2025-01-10") None 1736000000000.

Definition rice : InventoryItem :=
  mkItem "item-3" "Rice" 1 Kg Pantry JS.Null None 1736000000000.

Definition pudding : Recipe :=
  mkRecipe "recipe-1" "Rice pudding" 30 Easy "dessert" ["milk"; "sugar"]
    ["Simmer"; "Sweeten"] ∅ None.

Definition omelette : Recipe :=
  mkRecipe "recipe-2" "Omelette" 10 Easy "main" ["Eggs"; "butter"]
    ["Whisk"; "Fry"] ∅ None.

(** ** More of the JavaScript the component uses *)

Module JSLib.

(** [`${days}`] for the result of [getDaysUntilExpiry]: ["null"], ["NaN"]
    or the digits of the day count.  A day count is an integer
    ([Math.ceil]) far below 10^21, where the exponent notation of
    Number::toString starts (time values stay below 8.64e15). *)
Definition ToString_days (days : option JS.Number) : string :=
  match days with
  | None => "null"
  | Some JS.NaN => "NaN"
  | Some (JS.Num q) => pretty (Qceiling q)
  end.

(** [`${v}`] for a string, [null] or [undefined]. *)
Definition ToString (v : JS.Value) : string :=
  match v with
  | JS.Undefined => "undefined"
  | JS.Null => "null"
  | JS.Str s => s
  end.

(** [v || d] where [v] is a string, [null] or [undefined] and [d] a
    string. *)
Definition or_string (v : JS.Value) (d : string) : string :=
  match v with
  | JS.Str s => if JS.truthy v then s else d
  | _ => d
  end.

(** [s.split(c)[0]]: what precedes the first [c], all of [s] without
    one. *)
Fixpoint split_head (c : ascii) (s : string) : string :=
  match s with
  | EmptyString => EmptyString
  | String a s' => if Ascii.eqb a c then EmptyString else String a (split_head c s')
  end.

(** The value of a digit in [radix] 10 or 16. *)
Definition digit_value (radix : Z) (a : ascii) : option Z :=
  let n := Z.of_N (N_of_ascii a) in
  let v := if (48 <=? n) && (n <=? 57) then Some (n - 48)
           else if (97 <=? n) && (n <=? 102) then Some (n - 87)
           else if (65 <=? n) && (n <=? 70) then Some (n - 55)
           else None in
  match v with
  | Some d => if d <? radix then Some d else None
  | None => None
  end.

(** The longest prefix of digits, read most significant first; [None]
    when the first character is no digit. *)
Fixpoint leading_digits (radix : Z) (acc : option Z) (s : string) : option Z :=
  match s with
  | EmptyString => acc
  | String a s' =>
      match digit_value radix a with
      | Some d => leading_digits radix (Some (default 0 acc * radix + d)) s'
      | None => acc
      end
  end.

(** [parseInt(s)] without a radix: leading white space, a sign, [0x] or
    [0X] for radix 16, then the longest run of digits; NaN without one.
    White space is the ASCII set. *)
Definition parseInt (s : string) : JS.Number :=
  let s := trim_left s in
  let '(sign, s) :=
    match s with
    | String "-" r => (-1, r)
    | String "+" r => (1, r)
    | _ => (1, s)
    end in
  let '(radix, s) :=
    match s with
    | String "0" (String "x" r) | String "0" (String "X" r) => (16, r)
    | _ => (10, s)
    end in
  match leading_digits radix None s with
  | Some n => JS.of_Z (sign * n)
  | None => JS.NaN
  end.

End JSLib.

(** ** The expiry badge of an inventory card *)

Inductive Icon : Type := FaExclamationTriangle | FaFireAlt | FaCheckCircle.

Record Badge : Type := mkBadge {
  badge_class : string;
  badge_icon : Icon;
  badge_text : string
}.

(** An item as [/api/inventory] returns it and the cards show it. *)
Record StoredItem : Type := mkStored {
  stored_id : string;
  stored_name : string;
  stored_quantity : Z;
  stored_unit : string;
  stored_category : string;
  stored_expiry_date : JS.Value;
  stored_barcode : JS.Value
}.

(** What [shareItem] hands to the platform. *)
Inductive Shared : Type :=
| NavigatorShare (title text url : string)
| ClipboardWrite (text toast : string).

Section Cards.

Variable Date_parse : string → option Z.

(** [badgeConfig[status]]; [None] for a key the object does not have. *)
Definition badgeConfig (days : option JS.Number) (status : Status) : option Badge :=
  match status with
  | StExpired => Some (mkBadge "badge-danger" FaExclamationTriangle "Expired")
  | StExpiring =>
      Some (mkBadge "badge-warning" FaFireAlt
              (JSLib.ToString_days days +:+ " days left"))
  | StFresh =>
      Some (mkBadge "badge-success" FaCheckCircle
              (JSLib.ToString_days days +:+ " days left"))
  | StNone => None
  end.

(** The badge rendered, [None] when the component renders nothing. *)
Definition ExpiryBadge (expiryDate : JS.Value) : M (option Badge) :=
  status ← getExpiryStatus Date_parse expiryDate;
  days ← getDaysUntilExpiry Date_parse expiryDate;
  match status with
  | StNone => mret None
  | _ => mret (badgeConfig days status)
  end.

(** [navigator_share] tells whether the browser has [navigator.share];
    [href] is [window.location.href]. *)
Definition shareItem (navigator_share : bool) (href : string)
    (item : StoredItem) : M Shared :=
  if navigator_share then
    days ← getDaysUntilExpiry Date_parse (stored_expiry_date item);
    mret (NavigatorShare "SmartKitchen - Surplus Item"
            ("I have surplus " +:+ stored_name item
             +:+ " available! Expires in " +:+ JSLib.ToString_days days
             +:+ " days.")
            href)
  else
    days ← getDaysUntilExpiry Date_parse (stored_expiry_date item);
    mret (ClipboardWrite
            ("I have surplus " +:+ stored_name item
             +:+ " available! Expires in " +:+ JSLib.ToString_days days
             +:+ " days. Check out SmartKitchen app!")
            "Share text copied to clipboard!").

End Cards.

(** [item.expiry_date ? item.expiry_date.split('T')[0] : ''], the date the
    edit button puts into the form. *)
Definition edit_expiry_date (expiry_date : JS.Value) : JS.Value :=
  match expiry_date with
  | JS.Str s => if JS.truthy expiry_date then JS.Str (JSLib.split_head "T" s) else JS.Str ""
  | _ => JS.Str ""
  end.

(** ** The component state the form handlers work on *)

(** The state of a number input: the number a literal or a stored item
    put there, or the text the user typed ([e.target.value]). *)
Inductive NumberField : Type :=
| NumberValue (n : Z)
| TextValue (s : string).

(** [parseInt(field)]; an integer (below 10^21) is first written out in
    digits and so comes back as it is. *)
Definition parseInt_field (f : NumberField) : JS.Number :=
  match f with
  | NumberValue n => JS.of_Z n
  | TextValue s => JSLib.parseInt s
  end.

(** [itemForm] while the modal is open. *)
Record ItemFormState : Type := mkItemFormState {
  name : string;
  quantity : NumberField;
  unit_ : string;
  category : string;
  expiry_date : JS.Value;
  barcode : string
}.

(** The form state a literal of the source denotes. *)
Definition form_state (f : ItemForm) : ItemFormState :=
  {| name := form_name f;
     quantity := NumberValue (form_quantity f);
     unit_ := form_unit f;
     category := form_category f;
     expiry_date := form_expiry_date f;
     barcode := form_barcode f |}.

(** [wasteForm] *)
Record WasteFormState : Type := mkWasteFormState {
  waste_item_id : string;
  waste_quantity : NumberField;
  waste_reason : string
}.

Definition wasteForm_initial : WasteFormState :=
  {| waste_item_id := ""; waste_quantity := NumberValue 1; waste_reason := "expired" |}.

(** The body of [POST /api/inventory] and [PUT /api/inventory/{id}];
    [added_date] is the Date whose ISO string is sent. *)
Record NewItem : Type := mkNewItem {
  new_name : string;
  new_quantity : JS.Number;
  new_unit : string;
  new_category : string;
  new_expiry_date : JS.Value;
  new_barcode : string;
  new_added_date : JS.Date;
  new_user_id : string
}.

(** The body of [POST /api/waste]. *)
Record WasteItem : Type := mkWasteItem {
  wasted_item_id : string;
  wasted_quantity : JS.Number;
  wasted_reason : string;
  wasted_item_name : string;
  wasted_date_discarded : JS.Date;
  wasted_user_id : string
}.

Inductive Method : Type := POST | PUT | DELETE.

Inductive Body : Type :=
| ItemBody (item : NewItem)
| WasteBody (item : WasteItem)
| NoBody.

(** A request that changes the store. *)
Record Write : Type := mkWrite {
  write_method : Method;
  write_url : string;
  write_body : Body
}.

Inductive ToastKind : Type := ToastSuccess | ToastError.

(** The state variables the form handlers read or write, the toasts shown
    and the writes sent, oldest first. *)
Record App : Type := mkApp {
  app_runtime : Runtime;
  inventory : list StoredItem;
  recipes : list Recipe;
  itemForm : ItemFormState;
  wasteForm : WasteFormState;
  selectedItem : option StoredItem;
  scannedBarcode : string;
  showAddModal : bool;
  showWasteModal : bool;
  toasts : list (ToastKind * string);
  sent : list Write
}.

Definition with_runtime (x : Runtime) (a : App) : App :=
  {| app_runtime := x;
     inventory := inventory a;
     recipes := recipes a;
     itemForm := itemForm a;
     wasteForm := wasteForm a;
     selectedItem := selectedItem a;
     scannedBarcode := scannedBarcode a;
     showAddModal := showAddModal a;
     showWasteModal := showWasteModal a;
     toasts := toasts a;
     sent := sent a |}.

Definition with_recipes (x : list Recipe) (a : App) : App :=
  {| app_runtime := app_runtime a;
     inventory := inventory a;
     recipes := x;
     itemForm := itemForm a;
     wasteForm := wasteForm a;
     selectedItem := selectedItem a;
     scannedBarcode := scannedBarcode a;
     showAddModal := showAddModal a;
     showWasteModal := showWasteModal a;
     toasts := toasts a;
     sent := sent a |}.

Definition with_itemForm (x : ItemFormState) (a : App) : App :=
  {| app_runtime := app_runtime a;
     inventory := inventory a;
     recipes := recipes a;
     itemForm := x;
     wasteForm := wasteForm a;
     selectedItem := selectedItem a;
     scannedBarcode := scannedBarcode a;
     showAddModal := showAddModal a;
     showWasteModal := showWasteModal a;
     toasts := toasts a;
     sent := sent a |}.

Definition with_wasteForm (x : WasteFormState) (a : App) : App :=
  {| app_runtime := app_runtime a;
     inventory := inventory a;
     recipes := recipes a;
     itemForm := itemForm a;
     wasteForm := x;
     selectedItem := selectedItem a;
     scannedBarcode := scannedBarcode a;
     showAddModal := showAddModal a;
     showWasteModal := showWasteModal a;
     toasts := toasts a;
     sent := sent a |}.

Definition with_selectedItem (x : option StoredItem) (a : App) : App :=
  {| app_runtime := app_runtime a;
     inventory := inventory a;
     recipes := recipes a;
     itemForm := itemForm a;
     wasteForm := wasteForm a;
     selectedItem := x;
     scannedBarcode := scannedBarcode a;
     showAddModal := showAddModal a;
     showWasteModal := showWasteModal a;
     toasts := toasts a;
     sent := sent a |}.

Definition with_scannedBarcode (x : string) (a : App) : App :=
  {| app_runtime := app_runtime a;
     inventory := inventory a;
     recipes := recipes a;
     itemForm := itemForm a;
     wasteForm := wasteForm a;
     selectedItem := selectedItem a;
     scannedBarcode := x;
     showAddModal := showAddModal a;
     showWasteModal := showWasteModal a;
     toasts := toasts a;
     sent := sent a |}.

Definition with_showAddModal (x : bool) (a : App) : App :=
  {| app_runtime := app_runtime a;
     inventory := inventory a;
     recipes := recipes a;
     itemForm := itemForm a;
     wasteForm := wasteForm a;
     selectedItem := selectedItem a;
     scannedBarcode := scannedBarcode a;
     showAddModal := x;
     showWasteModal := showWasteModal a;
     toasts := toasts a;
     sent := sent a |}.

Definition with_showWasteModal (x : bool) (a : App) : App :=
  {| app_runtime := app_runtime a;
     inventory := inventory a;
     recipes := recipes a;
     itemForm := itemForm a;
     wasteForm := wasteForm a;
     selectedItem := selectedItem a;
     scannedBarcode := scannedBarcode a;
     showAddModal := showAddModal a;
     showWasteModal := x;
     toasts := toasts a;
     sent := sent a |}.

Definition with_toasts (x : list (ToastKind * string)) (a : App) : App :=
  {| app_runtime := app_runtime a;
     inventory := inventory a;
     recipes := recipes a;
     itemForm := itemForm a;
     wasteForm := wasteForm a;
     selectedItem := selectedItem a;
     scannedBarcode := scannedBarcode a;
     showAddModal := showAddModal a;
     showWasteModal := showWasteModal a;
     toasts := x;
     sent := sent a |}.

Definition with_sent (x : list Write) (a : App) : App :=
  {| app_runtime := app_runtime a;
     inventory := inventory a;
     recipes := recipes a;
     itemForm := itemForm a;
     wasteForm := wasteForm a;
     selectedItem := selectedItem a;
     scannedBarcode := scannedBarcode a;
     showAddModal := showAddModal a;
     showWasteModal := showWasteModal a;
     toasts := toasts a;
     sent := x |}.

(** Handlers: computations on the component state. *)
Definition UI (A : Type) : Type := App → A * App.

Global Instance UI_ret : MRet UI := λ A (x : A) a, (x, a).

Global Instance UI_bind : MBind UI :=
  λ A B (k : A → UI B) (m : UI A) a, let '(x, a') := m a in k x a'.

Definition runUI {A} (m : UI A) (a : App) : App := snd (m a).

(** A computation on the runtime, run inside a handler. *)
Definition liftM {A} (m : M A) : UI A :=
  λ a, let '(x, w) := m (app_runtime a) in (x, with_runtime w a).

(** The state of the render the handler belongs to. *)
Definition render : UI App := λ a, (a, a).

Definition update (f : App → App) : UI unit := λ a, (tt, f a).

Definition toast (k : ToastKind) (msg : string) : UI unit :=
  update (λ a, with_toasts (toasts a ++ [(k, msg)]) a).

Definition send (m : Method) (url : string) (b : Body) : UI unit :=
  update (λ a, with_sent (sent a ++ [mkWrite m url b]) a).

(** The handlers are followed to their end for each outcome of the request
    they await: [ok] tells whether it succeeded. *)
Definition addInventoryItem (ok : bool) (item : NewItem) : UI unit :=
  send POST "/api/inventory" (ItemBody item);;
  if ok then
    toast ToastSuccess "Item added successfully!";;
    liftM fetchInventory
  else toast ToastError "Failed to add item".

Definition updateInventoryItem (ok : bool) (itemId : string) (item : NewItem) : UI unit :=
  send PUT ("/api/inventory/" +:+ itemId) (ItemBody item);;
  if ok then
    toast ToastSuccess "Item updated successfully!";;
    liftM fetchInventory
  else toast ToastError "Failed to update item".

Definition deleteInventoryItem (ok : bool) (itemId : string) : UI unit :=
  send DELETE ("/api/inventory/" +:+ itemId) NoBody;;
  if ok then
    toast ToastSuccess "Item deleted successfully!";;
    liftM fetchInventory
  else toast ToastError "Failed to delete item".

Definition addWasteItem (ok : bool) (wasteItem : WasteItem) : UI unit :=
  send POST "/api/waste" (WasteBody wasteItem);;
  if ok then
    toast ToastSuccess "Waste item logged successfully!";;
    liftM fetchWasteItems
  else toast ToastError "Failed to log waste item".

Definition resetForm : UI unit :=
  update (with_itemForm (form_state itemForm_initial));;
  update (with_selectedItem None);;
  update (with_scannedBarcode "").

Definition handleAddItem (ok : bool) : UI unit :=
  a ← render;
  if String.eqb (trim (name (itemForm a))) "" then
    toast ToastError "Please enter item name"
  else
    today ← liftM new_Date;
    let newItem :=
      {| new_name := name (itemForm a);
         new_quantity := parseInt_field (quantity (itemForm a));
         new_unit := unit_ (itemForm a);
         new_category := category (itemForm a);
         new_expiry_date := expiry_date (itemForm a);
         new_barcode := barcode (itemForm a);
         new_added_date := today;
         new_user_id := "default" |} in
    match selectedItem a with
    | Some item => updateInventoryItem ok (stored_id item) newItem
    | None => addInventoryItem ok newItem
    end;;
    update (with_showAddModal false);;
    resetForm.

(** [inventory.find(item => item.id === item_id)?.name || 'Unknown'] *)
Definition waste_item_name (inventory : list StoredItem) (item_id : string) : string :=
  JSLib.or_string
    (match List.find (λ item, String.eqb (stored_id item) item_id) inventory with
     | Some item => JS.Str (stored_name item)
     | None => JS.Undefined
     end)
    "Unknown".

Definition handleAddWaste (ok : bool) : UI unit :=
  a ← render;
  today ← liftM new_Date;
  let wasteItem :=
    {| wasted_item_id := waste_item_id (wasteForm a);
       wasted_quantity := parseInt_field (waste_quantity (wasteForm a));
       wasted_reason := waste_reason (wasteForm a);
       wasted_item_name := waste_item_name (inventory a) (waste_item_id (wasteForm a));
       wasted_date_discarded := today;
       wasted_user_id := "default" |} in
  addWasteItem ok wasteItem;;
  update (with_showWasteModal false);;
  update (with_wasteForm wasteForm_initial).

(** The edit button of an inventory card. *)
Definition editItem (item : StoredItem) : UI unit :=
  update (with_selectedItem (Some item));;
  update (with_itemForm
            {| name := stored_name item;
               quantity := NumberValue (stored_quantity item);
               unit_ := stored_unit item;
               category := stored_category item;
               expiry_date := edit_expiry_date (stored_expiry_date item);
               barcode := JSLib.or_string (stored_barcode item) "" |});;
  update (with_showAddModal true).

(** [fetchRecipes] to its end: [response] is the list received, [None]
    when the request failed. *)
Definition fetchRecipes_done (response : option (list Recipe)) : UI unit :=
  liftM fetchRecipes;;
  match response with
  | Some data => update (with_recipes data)
  | None => toast ToastError "Failed to fetch recipes"
  end.

Definition fetchExpiringRecipes (response : option (list Recipe)) : UI (list Recipe) :=
  liftM (api_get "/api/recipes/expiring");;
  match response with
  | Some data => mret data
  | None => toast ToastError "Failed to fetch expiring recipes";; mret []
  end.

(** The Rescue Recipes button. *)
Definition rescueRecipes (response : option (list Recipe)) : UI unit :=
  expiringRecipes ← fetchExpiringRecipes response;
  update (with_recipes expiringRecipes).



(** The text [shareItem] shares. *)
Definition shared_text (x : Shared) : string :=
  match x with
  | NavigatorShare _ text _ => text
  | ClipboardWrite text _ => text
  end.

(** Every handle in the timer table was handed out by [setInterval]. *)
Definition handles_issued (w : Runtime) : Prop :=
  Forall (λ t, (timerId t < nextTimerId w)%nat) (timers w).

(** A string of white space only, the empty string included. *)
Fixpoint blank (s : string) : bool :=
  match s with
  | EmptyString => true
  | String c s' => Ascii.is_space c && blank s'
  end.

(** A string of ASCII characters.  On such strings [trim] is
    String.prototype.trim; the white space JavaScript knows beyond ASCII
    is not modelled. *)
Fixpoint ascii_only (s : string) : bool :=
  match s with
  | EmptyString => true
  | String c s' => (N_of_ascii c <? 128)%N && ascii_only s'
  end.

(** Whether the character occurs in the string. *)
Fixpoint occurs (c : ascii) (s : string) : bool :=
  match s with
  | EmptyString => false
  | String a s' => Ascii.eqb a c || occurs c s'
  end.

(** ** What the user can do with the item modal

    The buttons that open the modal, the edit button of a card, the two
    buttons that close it, the submit of its form and the change of one
    of its inputs.  The form and its inputs exist only while the modal is
    shown ([showAddModal && ...]). *)
Inductive Event : Type :=
| ClickAdd
| ClickEdit (item : StoredItem)
| ClickCancel
| SubmitItem (ok : bool)
| ChangeName (v : string)
| ChangeQuantity (v : string)
| ChangeUnit (v : string)
| ChangeCategory (v : string)
| ChangeExpiryDate (v : string).

(** [setItemForm({...itemForm, field: e.target.value})] for each input. *)
Definition change_field (e : Event) (f : ItemFormState) : ItemFormState :=
  {| name := match e with ChangeName v => v | _ => name f end;
     quantity := match e with ChangeQuantity v => TextValue v | _ => quantity f end;
     unit_ := match e with ChangeUnit v => v | _ => unit_ f end;
     category := match e with ChangeCategory v => v | _ => category f end;
     expiry_date := match e with ChangeExpiryDate v => JS.Str v | _ => expiry_date f end;
     barcode := barcode f |}.

Definition dispatch (e : Event) : UI unit :=
  match e with
  | ClickAdd => update (with_showAddModal true)
  | ClickEdit item => editItem item
  | ClickCancel => update (with_showAddModal false);; resetForm
  | SubmitItem ok =>
      a ← render;
      if showAddModal a then handleAddItem ok else mret tt
  | _ =>
      a ← render;
      if showAddModal a then update (with_itemForm (change_field e (itemForm a)))
      else mret tt
  end.

Definition dispatch_all (es : list Event) (a : App) : App :=
  foldl (λ a e, runUI (dispatch e) a) a es.

(** While the item modal is closed the form is pristine and no item is
    selected. *)
Definition closed_is_pristine (a : App) : Prop :=
  showAddModal a = false →
  itemForm a = form_state itemForm_initial ∧ selectedItem a = None.

(** The component as [useState] initialises it, on a page loaded at
    clock reading [t]. *)
Definition app_initial (t : Z) : App :=
  {| app_runtime := initial t;
     inventory := [];
     recipes := [];
     itemForm := form_state itemForm_initial;
     wasteForm := wasteForm_initial;
     selectedItem := None;
     scannedBarcode := "";
     showAddModal := false;
     showWasteModal := false;
     toasts := [];
     sent := [] |}.

(** * Properties *)

(** ** Arithmetic of the day count *)

(** The ceiling of a quotient by the milliseconds of a day, on integers. *)
Lemma ceiling_day_bounds (t now : Z) :
  let k := Qceiling ((inject_Z t - inject_Z now) / inject_Z (1000 * 60 * 60 * 24)) in
  86400000 * (k - 1) < t - now ≤ 86400000 * k.
Proof.
  intros k.
  pose proof (Qle_ceiling ((inject_Z t - inject_Z now) / inject_Z (1000 * 60 * 60 * 24))) as Hle.
  pose proof (Qceiling_lt ((inject_Z t - inject_Z now) / inject_Z (1000 * 60 * 60 * 24))) as Hlt.
  fold k in Hle, Hlt. clearbody k.
  change (1000 * 60 * 60 * 24) with 86400000 in Hle, Hlt.
  unfold Qle, Qlt, Qdiv, Qmult, Qminus, Qplus, Qopp, Qinv, inject_Z in Hle, Hlt.
  cbn [Qnum Qden] in Hle, Hlt. lia.
Qed.

Lemma le_of_Z (a b : Z) : JS.le (JS.of_Z a) (JS.of_Z b) = bool_decide (a ≤ b).
Proof.
  unfold JS.le, JS.of_Z.
  destruct (Qle_bool (inject_Z a) (inject_Z b)) eqn:E.
  - apply Qle_bool_iff in E. rewrite <- Zle_Qle in E.
    symmetry. by apply bool_decide_eq_true.
  - symmetry. apply bool_decide_eq_false. intros H.
    rewrite Zle_Qle in H. apply Qle_bool_iff in H. congruence.
Qed.

(** ** Running the classifier *)

Section Classifier.

Variable Date_parse : string → option Z.

(** Both functions leave the runtime as it was and read its clock only. *)
Lemma getDaysUntilExpiry_run (e : JS.Value) (w : Runtime) :
  getDaysUntilExpiry Date_parse e w = (daysRemaining Date_parse e (clock w), w).
Proof.
  unfold daysRemaining, evalM, getDaysUntilExpiry.
  destruct (JS.truthy e); reflexivity.
Qed.

Lemma getExpiryStatus_run (e : JS.Value) (w : Runtime) :
  getExpiryStatus Date_parse e w = (classify Date_parse e (clock w), w).
Proof.
  unfold classify, evalM, getExpiryStatus, mbind, M_bind.
  rewrite !getDaysUntilExpiry_run. cbn [clock initial].
  destruct (daysRemaining Date_parse e (clock w)) as [d|]; [|reflexivity].
  destruct (JS.le d (JS.of_Z 0)); [reflexivity|].
  destruct (JS.le d (JS.of_Z 3)); reflexivity.
Qed.

Lemma truthy_Str (s : string) : s ≠ "" → JS.truthy (JS.Str s) = true.
Proof.
  intros H. cbn. apply negb_true_iff, String.eqb_neq, H.
Qed.

Lemma daysRemaining_falsy (e : JS.Value) (now : Z) :
  JS.truthy e = false → daysRemaining Date_parse e now = None.
Proof.
  intros H. unfold daysRemaining, evalM, getDaysUntilExpiry. by rewrite H.
Qed.

Lemma daysRemaining_truthy (e : JS.Value) (now : Z) :
  JS.truthy e = true →
  daysRemaining Date_parse e now =
    Some (JS.Math_ceil
            (JS.div (JS.sub (JS.timeValue (new_Date_of Date_parse e)) (JS.of_Z now))
                    (JS.of_Z (1000 * 60 * 60 * 24)))).
Proof.
  intros He. unfold daysRemaining, evalM, getDaysUntilExpiry.
  rewrite He. reflexivity.
Qed.

Lemma daysRemaining_valid (s : string) (t now : Z) :
  s ≠ "" → Date_parse s = Some t →
  daysRemaining Date_parse (JS.Str s) now =
    Some (JS.of_Z (Qceiling ((inject_Z t - inject_Z now)
                             / inject_Z (1000 * 60 * 60 * 24)))).
Proof.
  intros Hs Ht. unfold daysRemaining, evalM, getDaysUntilExpiry.
  rewrite (truthy_Str s Hs). cbn. rewrite Ht. reflexivity.
Qed.

Lemma daysRemaining_invalid (s : string) (now : Z) :
  s ≠ "" → Date_parse s = None →
  daysRemaining Date_parse (JS.Str s) now = Some JS.NaN.
Proof.
  intros Hs Ht. unfold daysRemaining, evalM, getDaysUntilExpiry.
  rewrite (truthy_Str s Hs). cbn. rewrite Ht. reflexivity.
Qed.

(** The status is a function of the day count. *)
Lemma classify_days (e : JS.Value) (now : Z) :
  classify Date_parse e now =
    match daysRemaining Date_parse e now with
    | None => StNone
    | Some d =>
        if JS.le d (JS.of_Z 0) then StExpired
        else if JS.le d (JS.of_Z 3) then StExpiring
        else StFresh
    end.
Proof.
  unfold classify, evalM, getExpiryStatus, mbind, M_bind.
  rewrite getDaysUntilExpiry_run. cbn [clock initial].
  destruct (daysRemaining Date_parse e now) as [d|]; [|reflexivity].
  destruct (JS.le d (JS.of_Z 0)); [reflexivity|].
  destruct (JS.le d (JS.of_Z 3)); reflexivity.
Qed.

Lemma classify_of_Z (e : JS.Value) (now k : Z) :
  daysRemaining Date_parse e now = Some (JS.of_Z k) →
  classify Date_parse e now =
    if bool_decide (k ≤ 0) then StExpired
    else if bool_decide (k ≤ 3) then StExpiring
    else StFresh.
Proof.
  intros H. rewrite classify_days, H, !le_of_Z. reflexivity.
Qed.

Lemma classify_truthy (e : JS.Value) (now : Z) :
  JS.truthy e = true → classify Date_parse e now ≠ StNone.
Proof.
  intros He. rewrite classify_days.
  rewrite (daysRemaining_truthy e now He).
  repeat match goal with
         | |- context [if ?b then _ else _] => destruct b
         end; discriminate.
Qed.

End Classifier.

(** ** The expiry classifier *)

(** C1. For an expiry date that is present and parses, with [k] the day
    count [getDaysUntilExpiry] returns, [getExpiryStatus] answers expired
    exactly when [k ≤ 0], expiring exactly when [0 < k ≤ 3] and fresh
    exactly when [k > 3]; a date not after the clock reading is expired. *)
Theorem classify_thresholds (Date_parse : string → option Z)
    (s : string) (t : Z) (w : Runtime) :
  s ≠ "" → Date_parse s = Some t →
  ∃ k : Z,
    evalM (getDaysUntilExpiry Date_parse (JS.Str s)) w = Some (JS.of_Z k)
    ∧ (evalM (getExpiryStatus Date_parse (JS.Str s)) w = StExpired ↔ k ≤ 0)
    ∧ (evalM (getExpiryStatus Date_parse (JS.Str s)) w = StExpiring ↔ 0 < k ≤ 3)
    ∧ (evalM (getExpiryStatus Date_parse (JS.Str s)) w = StFresh ↔ 3 < k)
    ∧ (t ≤ clock w → evalM (getExpiryStatus Date_parse (JS.Str s)) w = StExpired).
Proof.
  intros Hs Ht.
  pose proof (daysRemaining_valid Date_parse s t (clock w) Hs Ht) as Hd.
  pose proof (ceiling_day_bounds t (clock w)) as Hk. cbv zeta in Hk.
  set (k := Qceiling _) in Hd, Hk.
  exists k. unfold evalM.
  rewrite getDaysUntilExpiry_run, getExpiryStatus_run. cbn [fst].
  rewrite (classify_of_Z _ _ _ _ Hd).
  split; [exact Hd|].
  repeat case_bool_decide; repeat split; intros; try done; try lia.
Qed.

Lemma classify_thresholds_witness :
  "2025-01-10" ≠ "" ∧ ISO.parse "2025-01-10" = Some 1736467200000 ∧
  ∃ k : Z,
    evalM (getDaysUntilExpiry ISO.parse (JS.Str "2025-01-10")) (initial 1736337600000)
      = Some (JS.of_Z k)
    ∧ (evalM (getExpiryStatus ISO.parse (JS.Str "2025-01-10")) (initial 1736337600000)
         = StExpired ↔ k ≤ 0)
    ∧ (evalM (getExpiryStatus ISO.parse (JS.Str "2025-01-10")) (initial 1736337600000)
         = StExpiring ↔ 0 < k ≤ 3)
    ∧ (evalM (getExpiryStatus ISO.parse (JS.Str "2025-01-10")) (initial 1736337600000)
         = StFresh ↔ 3 < k)
    ∧ (1736467200000 ≤ clock (initial 1736337600000) →
       evalM (getExpiryStatus ISO.parse (JS.Str "2025-01-10")) (initial 1736337600000)
         = StExpired).
Proof.
  split; [discriminate|]. split; [reflexivity|].
  apply (classify_thresholds ISO.parse "2025-01-10" 1736467200000
           (initial 1736337600000)); [discriminate | reflexivity].
Defined.

(** C2. [getExpiryStatus] answers none exactly for an absent expiry date,
    that is [undefined], [null] or the empty string of the form; for
    [null] it is none at every clock reading, and a present expiry date is
    expired, expiring or fresh. *)
Theorem classify_none_iff_absent (Date_parse : string → option Z)
    (e : JS.Value) (w : Runtime) :
  (evalM (getExpiryStatus Date_parse e) w = StNone
     ↔ e = JS.Undefined ∨ e = JS.Null ∨ e = JS.Str "")
  ∧ evalM (getExpiryStatus Date_parse JS.Null) w = StNone
  ∧ (∀ s : string, s ≠ "" →
       evalM (getExpiryStatus Date_parse (JS.Str s)) w = StExpired
       ∨ evalM (getExpiryStatus Date_parse (JS.Str s)) w = StExpiring
       ∨ evalM (getExpiryStatus Date_parse (JS.Str s)) w = StFresh).
Proof.
  unfold evalM.
  split; [|split].
  - rewrite getExpiryStatus_run. cbn [fst]. split.
    + intros Hnone. destruct (JS.truthy e) eqn:He.
      * exfalso. apply (classify_truthy Date_parse e (clock w) He Hnone).
      * destruct e as [| |s]; auto.
        right; right. f_equal.
        apply negb_false_iff, String.eqb_eq in He. exact He.
    + intros H. rewrite classify_days, daysRemaining_falsy; [reflexivity|].
      destruct H as [->|[->| ->]]; reflexivity.
  - reflexivity.
  - intros s Hs. rewrite getExpiryStatus_run. cbn [fst].
    pose proof (classify_truthy Date_parse (JS.Str s) (clock w) (truthy_Str s Hs)) as Hn.
    destruct (classify Date_parse (JS.Str s) (clock w)); auto. by destruct Hn.
Qed.

Lemma classify_none_iff_absent_witness :
  "2025-01-10" ≠ ""
  ∧ (evalM (getExpiryStatus ISO.parse (JS.Str "2025-01-10")) (initial 1736337600000)
       = StExpired
     ∨ evalM (getExpiryStatus ISO.parse (JS.Str "2025-01-10")) (initial 1736337600000)
       = StExpiring
     ∨ evalM (getExpiryStatus ISO.parse (JS.Str "2025-01-10")) (initial 1736337600000)
       = StFresh).
Proof.
  split; [discriminate|].
  apply (classify_none_iff_absent ISO.parse JS.Null (initial 1736337600000)).
  discriminate.
Defined.

(** C3. For an expiry date that is present and parses to the time value
    [t], the day count is the least integer [k] with
    [t - now ≤ 86400000 * k], the ceiling of the difference in days; a
    date two hours after the clock reading counts one day. *)
Theorem daysRemaining_ceiling (Date_parse : string → option Z)
    (s : string) (t : Z) (w : Runtime) :
  s ≠ "" → Date_parse s = Some t →
  (∃ k : Z,
     evalM (getDaysUntilExpiry Date_parse (JS.Str s)) w = Some (JS.of_Z k)
     ∧ 86400000 * (k - 1) < t - clock w ≤ 86400000 * k)
  ∧ (t = clock w + 2 * 60 * 60 * 1000 →
     evalM (getDaysUntilExpiry Date_parse (JS.Str s)) w = Some (JS.of_Z 1)).
Proof.
  intros Hs Ht.
  pose proof (daysRemaining_valid Date_parse s t (clock w) Hs Ht) as Hd.
  pose proof (ceiling_day_bounds t (clock w)) as Hk. cbv zeta in Hk.
  set (k := Qceiling _) in Hd, Hk.
  unfold evalM. rewrite getDaysUntilExpiry_run. cbn [fst].
  split; [by exists k|].
  intros ->. rewrite Hd. do 2 f_equal. lia.
Qed.

Lemma daysRemaining_ceiling_witness :
  "2025-01-08T14:00:00.000Z" ≠ ""
  ∧ ISO.parse "2025-01-08T14:00:00.000Z" = Some (1736337600000 + 2 * 60 * 60 * 1000)
  ∧ evalM (getDaysUntilExpiry ISO.parse (JS.Str "2025-01-08T14:00:00.000Z"))
      (initial 1736337600000) = Some (JS.of_Z 1).
Proof.
  split; [discriminate|]. split; [reflexivity|].
  apply (daysRemaining_ceiling ISO.parse "2025-01-08T14:00:00.000Z"
           (1736337600000 + 2 * 60 * 60 * 1000) (initial 1736337600000));
    [discriminate | reflexivity | reflexivity].
Defined.

(** C9. For a non-empty expiry date string that is not a date,
    [getDaysUntilExpiry] returns NaN, not [null], and [getExpiryStatus]
    answers fresh, not none: NaN fails both comparisons. *)
Theorem unparseable_date_is_fresh (Date_parse : string → option Z)
    (s : string) (w : Runtime) :
  s ≠ "" → Date_parse s = None →
  evalM (getDaysUntilExpiry Date_parse (JS.Str s)) w = Some JS.NaN
  ∧ JS.le JS.NaN (JS.of_Z 0) = false
  ∧ JS.le JS.NaN (JS.of_Z 3) = false
  ∧ evalM (getExpiryStatus Date_parse (JS.Str s)) w = StFresh.
Proof.
  intros Hs Ht. unfold evalM.
  rewrite getDaysUntilExpiry_run, getExpiryStatus_run. cbn [fst].
  rewrite classify_days, (daysRemaining_invalid _ _ _ Hs Ht).
  repeat split.
Qed.

Lemma unparseable_date_is_fresh_witness :
  "next week" ≠ "" ∧ ISO.parse "next week" = None
  ∧ evalM (getDaysUntilExpiry ISO.parse (JS.Str "next week")) (initial 1736337600000)
      = Some JS.NaN
  ∧ JS.le JS.NaN (JS.of_Z 0) = false
  ∧ JS.le JS.NaN (JS.of_Z 3) = false
  ∧ evalM (getExpiryStatus ISO.parse (JS.Str "next week")) (initial 1736337600000)
      = StFresh.
Proof.
  split; [discriminate|]. split; [reflexivity|].
  apply (unparseable_date_is_fresh ISO.parse "next week" (initial 1736337600000));
    [discriminate | reflexivity].
Defined.

(** C10. The empty string, which the add-item form holds until a date is
    picked, is an absent expiry date: [getDaysUntilExpiry] returns [null]
    and [getExpiryStatus] none for it, as for [null] and [undefined]. *)
Theorem empty_string_is_absent (Date_parse : string → option Z) (w : Runtime) :
  form_expiry_date itemForm_initial = JS.Str ""
  ∧ evalM (getDaysUntilExpiry Date_parse (JS.Str "")) w = None
  ∧ evalM (getExpiryStatus Date_parse (JS.Str "")) w = StNone
  ∧ evalM (getDaysUntilExpiry Date_parse JS.Null) w = None
  ∧ evalM (getExpiryStatus Date_parse JS.Null) w = StNone
  ∧ evalM (getDaysUntilExpiry Date_parse JS.Undefined) w = None
  ∧ evalM (getExpiryStatus Date_parse JS.Undefined) w = StNone.
Proof. repeat split. Qed.

(** ** Purity *)

(** C7, as stated, fails: the clock is read inside the call, so the same
    expiry date gets two day counts and two statuses at two clock
    readings. *)
Lemma classification_depends_on_clock :
  evalM (getDaysUntilExpiry ISO.parse (JS.Str "2025-01-10")) (initial 1736337600000)
    ≠ evalM (getDaysUntilExpiry ISO.parse (JS.Str "2025-01-10")) (initial 1736600000000)
  ∧ evalM (getExpiryStatus ISO.parse (JS.Str "2025-01-10")) (initial 1736337600000)
    ≠ evalM (getExpiryStatus ISO.parse (JS.Str "2025-01-10")) (initial 1736600000000).
Proof. split; vm_compute; discriminate. Qed.

(** C7, amended. The classification functions change nothing in the
    runtime, and their results are functions of the expiry date and of the
    clock reading taken inside the call: two invocations with the same
    expiry date at the same clock reading agree, whatever else differs. *)
Theorem classification_deterministic_at_clock (Date_parse : string → option Z)
    (e : JS.Value) (w1 w2 : Runtime) :
  clock w1 = clock w2 →
  evalM (getDaysUntilExpiry Date_parse e) w1 = evalM (getDaysUntilExpiry Date_parse e) w2
  ∧ evalM (getExpiryStatus Date_parse e) w1 = evalM (getExpiryStatus Date_parse e) w2
  ∧ execM (getDaysUntilExpiry Date_parse e) w1 = w1
  ∧ execM (getExpiryStatus Date_parse e) w1 = w1.
Proof.
  intros Hc. unfold evalM, execM.
  rewrite !getDaysUntilExpiry_run, !getExpiryStatus_run, Hc. repeat split.
Qed.

Lemma classification_deterministic_at_clock_witness :
  clock (initial 1736337600000) = clock (execM mountEffect (initial 1736337600000))
  ∧ evalM (getDaysUntilExpiry ISO.parse (JS.Str "2025-01-10")) (initial 1736337600000)
    = evalM (getDaysUntilExpiry ISO.parse (JS.Str "2025-01-10"))
        (execM mountEffect (initial 1736337600000))
  ∧ evalM (getExpiryStatus ISO.parse (JS.Str "2025-01-10")) (initial 1736337600000)
    = evalM (getExpiryStatus ISO.parse (JS.Str "2025-01-10"))
        (execM mountEffect (initial 1736337600000))
  ∧ execM (getDaysUntilExpiry ISO.parse (JS.Str "2025-01-10")) (initial 1736337600000)
    = initial 1736337600000
  ∧ execM (getExpiryStatus ISO.parse (JS.Str "2025-01-10")) (initial 1736337600000)
    = initial 1736337600000.
Proof.
  split; [reflexivity|].
  apply (classification_deterministic_at_clock ISO.parse (JS.Str "2025-01-10")
           (initial 1736337600000) (execM mountEffect (initial 1736337600000))).
  reflexivity.
Defined.

(** ** The refresh scheduler *)

Lemma mountEffect_run (t0 : Z) :
  mountEffect (initial t0) = (clearInterval 0, mounted t0 0).
Proof.
  unfold mounted. cbn [seq fmap list_fmap]. rewrite app_nil_r.
  replace (t0 + 300000 * Z.of_nat 0) with t0 by lia.
  replace (t0 + 300000 * Z.of_nat 1) with (t0 + 300000) by lia.
  reflexivity.
Qed.

Lemma tick_mounted (t0 : Z) (k : nat) :
  tick (mounted t0 k) = (tt, mounted t0 (S k)).
Proof.
  unfold tick, mounted. cbn [timers earliest callback timerId due clock].
  unfold run_callback, fetchNotifications, api_get.
  cbn [clock timers nextTimerId requests reschedule fmap list_fmap
       timerId Nat.eqb callback period due].
  replace ((t0 + 300000 * Z.of_nat k) `max` (t0 + 300000 * Z.of_nat (S k)))
    with (t0 + 300000 * Z.of_nat (S k)) by lia.
  replace (t0 + 300000 * Z.of_nat (S k) + 300000)
    with (t0 + 300000 * Z.of_nat (S (S k))) by lia.
  rewrite (seq_S k 1), fmap_app, app_assoc. reflexivity.
Qed.

Lemma ticks_mounted (n : nat) (t0 : Z) (k : nat) :
  ticks n (mounted t0 k) = (tt, mounted t0 (k + n)).
Proof.
  revert k. induction n as [|n IH]; intros k.
  - rewrite Nat.add_0_r. reflexivity.
  - cbn [ticks]. unfold mbind, M_bind. rewrite tick_mounted, IH.
    by rewrite Nat.add_succ_r.
Qed.

Lemma request_times_mounted (t0 : Z) (k : nat) :
  request_times "/api/notifications/expiring" (mounted t0 k)
  = (λ j, t0 + 5 * 60 * 1000 * Z.of_nat j) <$> seq 0 (S k).
Proof.
  unfold request_times, mounted. cbn [requests].
  rewrite filter_app, fmap_app.
  cbn [seq fmap list_fmap].
  replace (t0 + 5 * 60 * 1000 * Z.of_nat 0) with t0 by lia.
  apply (f_equal2 app (y1 := [t0])); [reflexivity|].
  generalize 1%nat. induction k as [|k IH]; intros a; [reflexivity|].
  cbn [seq fmap list_fmap]. rewrite filter_cons_True by reflexivity.
  cbn [fmap list_fmap fst]. f_equal. apply IH.
Qed.

Lemma ticks_no_timers (m : nat) (w : Runtime) :
  timers w = [] → ticks m w = (tt, w).
Proof.
  intros Hw. induction m as [|m IH]; [reflexivity|].
  cbn [ticks]. unfold mbind, M_bind, tick at 1. rewrite Hw. cbn [earliest].
  exact IH.
Qed.

(** C8. On mount the notifications are requested at once; from then on
    the event loop requests them again every five minutes, the [k]-th
    repetition [k] periods after the mount; and the cleanup, whenever it
    runs, leaves the timer table empty, after which the event loop does
    nothing more. *)
Theorem refresh_schedule (t0 : Z) (n : nat) :
  request_times "/api/notifications/expiring" (execM mountEffect (initial t0)) = [t0]
  ∧ request_times "/api/notifications/expiring"
      (execM (ticks n) (execM mountEffect (initial t0)))
    = (λ k, t0 + 5 * 60 * 1000 * Z.of_nat k) <$> seq 0 (S n)
  ∧ timers (execM (evalM mountEffect (initial t0))
              (execM (ticks n) (execM mountEffect (initial t0)))) = []
  ∧ ∀ m : nat,
      execM (ticks m)
        (execM (evalM mountEffect (initial t0))
           (execM (ticks n) (execM mountEffect (initial t0))))
      = execM (evalM mountEffect (initial t0))
          (execM (ticks n) (execM mountEffect (initial t0))).
Proof.
  unfold execM, evalM. rewrite mountEffect_run. cbn [fst snd].
  rewrite ticks_mounted. cbn [fst snd plus].
  split; [|split; [|split]].
  - rewrite request_times_mounted. cbn [seq fmap list_fmap]. f_equal. lia.
  - apply request_times_mounted.
  - reflexivity.
  - intros m. by rewrite ticks_no_timers.
Qed.

(** ** The Notification Generator *)

Section Generator.

Variable Date_parse : string → option Z.
Variable alert_text : string → Status → JS.Number → string.

(** A day count is [null], NaN or an integer. *)
Lemma daysRemaining_cases (e : JS.Value) (now : Z) :
  daysRemaining Date_parse e now = None
  ∨ daysRemaining Date_parse e now = Some JS.NaN
  ∨ ∃ k : Z, daysRemaining Date_parse e now = Some (JS.of_Z k).
Proof.
  destruct (JS.truthy e) eqn:He.
  - rewrite (daysRemaining_truthy _ _ _ He).
    destruct (JS.timeValue (new_Date_of Date_parse e)) as [q|];
      [right; right; eexists; reflexivity | right; left; reflexivity].
  - left. by apply daysRemaining_falsy.
Qed.

(** What [candidate] keeps, in terms of an integer day count. *)
Lemma candidate_of_Z (now : Z) (it : InventoryItem) (k : Z) :
  daysRemaining Date_parse (item_expiryDate it) now = Some (JS.of_Z k) →
  candidate Date_parse now it =
    if bool_decide (k ≤ 0) then
      Some (mkCandidate it StExpired (JS.of_Z k) UHigh)
    else if bool_decide (k ≤ 3) then
      Some (mkCandidate it StExpiring (JS.of_Z k)
              (if bool_decide (k ≤ 1) then UHigh else UMedium))
    else None.
Proof.
  intros Hd. unfold candidate. rewrite (classify_of_Z _ _ _ _ Hd), Hd.
  cbn [mbind option_bind].
  repeat case_bool_decide; cbn [urgency_of mbind option_bind]; try reflexivity.
  all: rewrite le_of_Z; repeat case_bool_decide; try reflexivity; lia.
Qed.

Lemma candidate_inv (now : Z) (it : InventoryItem) (c : Candidate) :
  candidate Date_parse now it = Some c →
  ∃ k : Z,
    daysRemaining Date_parse (item_expiryDate it) now = Some (JS.of_Z k)
    ∧ k ≤ 3 ∧ cand_item c = it
    ∧ cand_urgency c = (if bool_decide (k ≤ 1) then UHigh else UMedium).
Proof.
  intros Hc.
  destruct (daysRemaining_cases (item_expiryDate it) now) as [Hd|[Hd|[k Hd]]].
  - unfold candidate in Hc. rewrite Hd in Hc. discriminate.
  - unfold candidate in Hc. rewrite classify_days, Hd in Hc. discriminate.
  - exists k. split; [exact Hd|].
    rewrite (candidate_of_Z _ _ _ Hd) in Hc.
    repeat case_bool_decide; simplify_eq; cbn; repeat split; try lia.
    all: repeat case_bool_decide; try reflexivity; lia.
Qed.

Lemma generate_elem (items : list InventoryItem) (now : Z) (a : Alert) :
  a ∈ generate Date_parse alert_text items now ↔
  ∃ i c, a = alert_of alert_text i c
         ∧ merge_sort (λ x y, cand_leb x y)
             (omap (candidate Date_parse now) items) !! i = Some c.
Proof. unfold generate. apply elem_of_lookup_imap. Qed.

(** Every candidate of the inventory gets its alert. *)
Lemma generate_complete (items : list InventoryItem) (now : Z)
    (it : InventoryItem) (c : Candidate) :
  it ∈ items → candidate Date_parse now it = Some c →
  ∃ a, a ∈ generate Date_parse alert_text items now
       ∧ alert_itemId a = item_id (cand_item c)
       ∧ alert_urgency a = cand_urgency c.
Proof.
  intros Hit Hc.
  assert (c ∈ merge_sort (λ x y, cand_leb x y)
                (omap (candidate Date_parse now) items)) as Hin.
  { rewrite merge_sort_Permutation. apply list_elem_of_omap. eauto. }
  apply list_elem_of_lookup in Hin as [i Hi].
  exists (alert_of alert_text i c). split; [|split; reflexivity].
  apply generate_elem. eauto.
Qed.

(** Every alert comes from a candidate of the inventory. *)
Lemma generate_sound (items : list InventoryItem) (now : Z) (a : Alert) :
  a ∈ generate Date_parse alert_text items now →
  ∃ it c, it ∈ items ∧ candidate Date_parse now it = Some c
          ∧ alert_itemId a = item_id (cand_item c)
          ∧ alert_urgency a = cand_urgency c.
Proof.
  intros Ha. apply generate_elem in Ha as (i & c & -> & Hi).
  assert (c ∈ omap (candidate Date_parse now) items) as Hin.
  { rewrite <- (merge_sort_Permutation (λ x y, cand_leb x y)).
    apply list_elem_of_lookup. eauto. }
  apply list_elem_of_omap in Hin as (it & Hit & Hc).
  exists it, c. repeat split; assumption.
Qed.

End Generator.

(** C4. With [k] the day count of an item of the inventory: for [k ≤ 0]
    the item is expired and has an alert of urgency high (so for [k = 0]);
    for [0 < k ≤ 1] it is expiring with an alert of urgency high; for
    [1 < k ≤ 3] it is expiring with an alert of urgency medium.  And every
    alert of the output belongs to an item with a day count [k ≤ 3], its
    urgency high exactly when [k ≤ 1]. *)
Theorem alert_urgency_rule (Date_parse : string → option Z)
    (alert_text : string → Status → JS.Number → string)
    (items : list InventoryItem) (now : Z) :
  (∀ (it : InventoryItem) (k : Z),
     it ∈ items →
     daysRemaining Date_parse (item_expiryDate it) now = Some (JS.of_Z k) →
     (k ≤ 0 →
        classify Date_parse (item_expiryDate it) now = StExpired
        ∧ ∃ a, a ∈ generate Date_parse alert_text items now
               ∧ alert_itemId a = item_id it ∧ alert_urgency a = UHigh)
     ∧ (0 < k ≤ 1 →
        classify Date_parse (item_expiryDate it) now = StExpiring
        ∧ ∃ a, a ∈ generate Date_parse alert_text items now
               ∧ alert_itemId a = item_id it ∧ alert_urgency a = UHigh)
     ∧ (1 < k ≤ 3 →
        classify Date_parse (item_expiryDate it) now = StExpiring
        ∧ ∃ a, a ∈ generate Date_parse alert_text items now
               ∧ alert_itemId a = item_id it ∧ alert_urgency a = UMedium))
  ∧ (∀ a : Alert,
       a ∈ generate Date_parse alert_text items now →
       ∃ (it : InventoryItem) (k : Z),
         it ∈ items ∧ alert_itemId a = item_id it
         ∧ daysRemaining Date_parse (item_expiryDate it) now = Some (JS.of_Z k)
         ∧ k ≤ 3
         ∧ alert_urgency a = (if bool_decide (k ≤ 1) then UHigh else UMedium)).
Proof.
  split.
  - intros it k Hit Hd.
    pose proof (classify_of_Z _ _ _ _ Hd) as Hst.
    pose proof (candidate_of_Z Date_parse now it k Hd) as Hc.
    split; [|split]; intros Hk; (split; [rewrite Hst|]).
    + by rewrite bool_decide_eq_true_2.
    + rewrite bool_decide_eq_true_2 in Hc by done.
      apply (generate_complete _ alert_text _ _ _ _ Hit Hc).
    + by rewrite bool_decide_eq_false_2, bool_decide_eq_true_2 by lia.
    + rewrite bool_decide_eq_false_2, bool_decide_eq_true_2,
        bool_decide_eq_true_2 in Hc by lia.
      apply (generate_complete _ alert_text _ _ _ _ Hit Hc).
    + by rewrite bool_decide_eq_false_2, bool_decide_eq_true_2 by lia.
    + rewrite bool_decide_eq_false_2, bool_decide_eq_true_2,
        bool_decide_eq_false_2 in Hc by lia.
      apply (generate_complete _ alert_text _ _ _ _ Hit Hc).
  - intros a Ha.
    apply generate_sound in Ha as (it & c & Hit & Hc & Hid & Hu).
    apply candidate_inv in Hc as (k & Hd & Hk & Hitem & Hurg).
    exists it, k. rewrite Hid, Hu, Hitem. repeat split; assumption.
Qed.

Lemma alert_urgency_rule_witness :
  eggs ∈ [milk; eggs; rice]
  ∧ daysRemaining ISO.parse (item_expiryDate eggs) sample_now = Some (JS.of_Z 0)
  ∧ 0 ≤ 0
  ∧ classify ISO.parse (item_expiryDate eggs) sample_now = StExpired
  ∧ ∃ a, a ∈ generate ISO.parse sample_alert_text [milk; eggs; rice] sample_now
         ∧ alert_itemId a = item_id eggs ∧ alert_urgency a = UHigh.
Proof.
  assert (eggs ∈ [milk; eggs; rice]) as Hin by (right; left).
  assert (daysRemaining ISO.parse (item_expiryDate eggs) sample_now
          = Some (JS.of_Z 0)) as Hd by reflexivity.
  split; [exact Hin|]. split; [exact Hd|]. split; [lia|].
  apply (proj1 (alert_urgency_rule ISO.parse sample_alert_text
                  [milk; eggs; rice] sample_now) eggs 0 Hin Hd).
  lia.
Defined.

(** ** The Recipe Matcher *)

Section Matcher.

Variable Date_parse : string → option Z.

Lemma at_risk_items_insert (l1 l2 : list InventoryItem) (it : InventoryItem) (now : Z) :
  at_risk_items Date_parse (l1 ++ it :: l2) now =
    at_risk_items Date_parse l1 now
    ++ (if at_risk (classify Date_parse (item_expiryDate it) now) then [it] else [])
    ++ at_risk_items Date_parse l2 now.
Proof.
  unfold at_risk_items. rewrite filter_app, filter_cons.
  destruct (at_risk (classify Date_parse (item_expiryDate it) now)) eqn:E.
  - rewrite decide_True by done. reflexivity.
  - rewrite decide_False by (by intros []). reflexivity.
Qed.

(** The matcher sees the inventory through its at-risk items only. *)
Lemma match_recipes_ext (items items' : list InventoryItem)
    (recipes : list Recipe) (now : Z) :
  at_risk_items Date_parse items now = at_risk_items Date_parse items' now →
  match_recipes Date_parse items recipes now
  = match_recipes Date_parse items' recipes now.
Proof.
  intros H. unfold match_recipes, at_risk_names, rank_leb, min_days.
  rewrite H. reflexivity.
Qed.

Lemma at_risk_names_insert (l1 l2 : list InventoryItem) (it : InventoryItem) (now : Z) :
  at_risk_names Date_parse (l1 ++ l2) now
  ⊆ at_risk_names Date_parse (l1 ++ it :: l2) now.
Proof.
  unfold at_risk_names. intros n.
  rewrite !elem_of_list_to_set, !list_elem_of_fmap.
  intros (x & -> & Hx). exists x. split; [reflexivity|].
  rewrite at_risk_items_insert.
  unfold at_risk_items in Hx. rewrite filter_app in Hx.
  apply elem_of_app in Hx as [Hx|Hx]; set_solver.
Qed.

Lemma annotate_Some (names : gset string) (r a : Recipe) :
  annotate names r = Some a →
  recipe_id a = recipe_id r ∧ intersection r names ≠ [].
Proof.
  unfold annotate. destruct (intersection r names) eqn:E; [discriminate|].
  intros [= <-]. split; [reflexivity | discriminate].
Qed.

Lemma annotate_nonempty (names : gset string) (r : Recipe) :
  intersection r names ≠ [] →
  ∃ a, annotate names r = Some a ∧ recipe_id a = recipe_id r.
Proof.
  unfold annotate. destruct (intersection r names) eqn:E; [done|].
  intros _. eexists. split; reflexivity.
Qed.

Lemma intersection_nonempty (r : Recipe) (names : gset string) :
  intersection r names ≠ [] ↔
  ∃ n, n ∈ recipe_ingredients r ∧ normalize n ∈ names.
Proof.
  unfold intersection. split.
  - intros H. destruct (filter _ _) as [|x l] eqn:E; [done|].
    assert (x ∈ filter (λ n, n ∈ names) (normalize <$> recipe_ingredients r)) as Hx
      by (rewrite E; left).
    apply list_elem_of_filter in Hx as [Hx1 Hx2].
    apply list_elem_of_fmap in Hx2 as (n & -> & Hn). eauto.
  - intros (n & Hn & Hin) E.
    assert (normalize n ∈ filter (λ n, n ∈ names) (normalize <$> recipe_ingredients r)) as Hx.
    { apply list_elem_of_filter. split; [done|]. by apply list_elem_of_fmap_2. }
    rewrite E in Hx. by apply not_elem_of_nil in Hx.
Qed.

(** When a catalog recipe is in the output. *)
Lemma matched_iff (items : list InventoryItem) (recipes : list Recipe)
    (now : Z) (r : Recipe) :
  matched r (match_recipes Date_parse items recipes now) ↔
  ∃ r1, r1 ∈ recipes ∧ recipe_id r1 = recipe_id r
        ∧ intersection r1 (at_risk_names Date_parse items now) ≠ [].
Proof.
  unfold matched, match_recipes. split.
  - intros (a & Ha & Hid). case_decide as Hn; [by apply not_elem_of_nil in Ha|].
    rewrite merge_sort_Permutation in Ha.
    apply list_elem_of_omap in Ha as (r1 & Hr1 & Han).
    apply annotate_Some in Han as [Hid1 Hne].
    exists r1. repeat split; [done | congruence | done].
  - intros (r1 & Hr1 & Hid & Hne).
    pose proof Hne as Hne'. apply intersection_nonempty in Hne' as (n & _ & Hn).
    rewrite decide_False
      by (intros Hempty; rewrite Hempty in Hn; by apply not_elem_of_empty in Hn).
    apply annotate_nonempty in Hne as (a & Ha & Hida).
    exists a. split; [|congruence].
    rewrite merge_sort_Permutation. apply list_elem_of_omap. eauto.
Qed.

End Matcher.

(** C5. The matcher returns the empty sequence for an empty catalog, for
    an empty inventory, and whenever no item of the inventory is at
    risk. *)
Theorem matcher_empty (Date_parse : string → option Z)
    (items : list InventoryItem) (recipes : list Recipe) (now : Z) :
  match_recipes Date_parse items [] now = []
  ∧ match_recipes Date_parse [] recipes now = []
  ∧ (at_risk_names Date_parse items now = ∅ →
     match_recipes Date_parse items recipes now = []).
Proof.
  unfold match_recipes. split; [|split].
  - case_decide; reflexivity.
  - rewrite decide_True; reflexivity.
  - intros H. by rewrite decide_True.
Qed.

Lemma matcher_empty_witness :
  at_risk_names ISO.parse [rice] sample_now = ∅
  ∧ match_recipes ISO.parse [rice] [pudding; omelette] sample_now = [].
Proof.
  assert (at_risk_names ISO.parse [rice] sample_now = ∅) as H by reflexivity.
  split; [exact H|].
  apply (matcher_empty ISO.parse [rice] [pudding; omelette] sample_now), H.
Defined.

(** C6. Inserting an item whose name is an ingredient of a catalog recipe
    that is not matched either brings that recipe into the output or
    leaves the output as it was; and every recipe matched before is
    matched after. *)
Theorem matcher_monotone (Date_parse : string → option Z)
    (items1 items2 : list InventoryItem) (it : InventoryItem)
    (recipes : list Recipe) (now : Z) (r : Recipe) :
  r ∈ recipes →
  ¬ matched r (match_recipes Date_parse (items1 ++ items2) recipes now) →
  (∃ n, n ∈ recipe_ingredients r ∧ normalize n = normalize (item_name it)) →
  (matched r (match_recipes Date_parse (items1 ++ it :: items2) recipes now)
   ∨ match_recipes Date_parse (items1 ++ it :: items2) recipes now
     = match_recipes Date_parse (items1 ++ items2) recipes now)
  ∧ (∀ r0 : Recipe,
       matched r0 (match_recipes Date_parse (items1 ++ items2) recipes now) →
       matched r0 (match_recipes Date_parse (items1 ++ it :: items2) recipes now)).
Proof.
  intros Hr _ (n & Hn & Hname). split.
  - destruct (at_risk (classify Date_parse (item_expiryDate it) now)) eqn:E.
    + left. apply matched_iff. exists r. repeat split; [done|].
      apply intersection_nonempty. exists n. split; [done|].
      rewrite Hname. unfold at_risk_names.
      rewrite elem_of_list_to_set, at_risk_items_insert, E.
      apply (list_elem_of_fmap_2 (normalize ∘ item_name)). set_solver.
    + right. apply match_recipes_ext.
      rewrite at_risk_items_insert, E. unfold at_risk_items.
      by rewrite filter_app.
  - intros r0. rewrite !matched_iff.
    intros (r1 & Hr1 & Hid & Hne). exists r1. repeat split; [done..|].
    apply intersection_nonempty in Hne as (m & Hm & Hin).
    apply intersection_nonempty. exists m. split; [done|].
    by apply (at_risk_names_insert Date_parse items1 items2 it now).
Qed.

Lemma matcher_monotone_witness :
  pudding ∈ [pudding; omelette]
  ∧ ¬ matched pudding
        (match_recipes ISO.parse ([eggs] ++ [rice]) [pudding; omelette] sample_now)
  ∧ (∃ n, n ∈ recipe_ingredients pudding ∧ normalize n = normalize (item_name milk))
  ∧ (matched pudding
       (match_recipes ISO.parse ([eggs] ++ milk :: [rice]) [pudding; omelette] sample_now)
     ∨ match_recipes ISO.parse ([eggs] ++ milk :: [rice]) [pudding; omelette] sample_now
       = match_recipes ISO.parse ([eggs] ++ [rice]) [pudding; omelette] sample_now)
  ∧ (∀ r0 : Recipe,
       matched r0
         (match_recipes ISO.parse ([eggs] ++ [rice]) [pudding; omelette] sample_now) →
       matched r0
         (match_recipes ISO.parse ([eggs] ++ milk :: [rice]) [pudding; omelette] sample_now)).
Proof.
  assert (pudding ∈ [pudding; omelette]) as Hin by left.
  assert (¬ matched pudding
            (match_recipes ISO.parse ([eggs] ++ [rice]) [pudding; omelette] sample_now))
    as Hnot.
  { intros (a & Ha & Hid). vm_compute in Ha.
    apply list_elem_of_singleton in Ha. subst a. discriminate Hid. }
  assert (∃ n, n ∈ recipe_ingredients pudding
               ∧ normalize n = normalize (item_name milk)) as Hshare.
  { exists "milk". split; [left | reflexivity]. }
  split; [exact Hin|]. split; [exact Hnot|]. split; [exact Hshare|].
  exact (matcher_monotone ISO.parse [eggs] [rice] milk [pudding; omelette]
           sample_now pudding Hin Hnot Hshare).
Defined.

(** ** The scenarios of the specification, evaluated *)

Example scenario_milk_rescue :
  (λ r, (recipe_id r, recipe_expiringIngredients r))
    <$> match_recipes ISO.parse [milk] [pudding; omelette] sample_now
  = [("recipe-1", Some ["milk"])].
Proof. vm_compute. reflexivity. Qed.

Example scenario_alert_order :
  (λ a, (alert_itemId a, alert_urgency a))
    <$> generate ISO.parse sample_alert_text [milk; eggs; rice] sample_now
  = [("item-1", UHigh); ("item-2", UMedium)].
Proof. vm_compute. reflexivity. Qed.

Example scenario_two_hours :
  evalM (getDaysUntilExpiry ISO.parse (JS.Str "2025-01-10T02:00:00.000Z"))
    (initial sample_now) = Some (JS.of_Z 1).
Proof. reflexivity. Qed.

(** * Further properties of the front end *)

(** ** The classifier over time *)

Section Aging.

Variable Date_parse : string → option Z.

(** The day count of every expiry date, by cases. *)
Lemma daysRemaining_spec (e : JS.Value) (now : Z) :
  daysRemaining Date_parse e now =
    match e with
    | JS.Str s =>
        if decide (s = "") then None
        else match Date_parse s with
             | Some t =>
                 Some (JS.of_Z (Qceiling ((inject_Z t - inject_Z now)
                                          / inject_Z (1000 * 60 * 60 * 24))))
             | None => Some JS.NaN
             end
    | _ => None
    end.
Proof.
  destruct e as [| |s]; try reflexivity.
  destruct (decide (s = "")) as [->|Hs]; [reflexivity|].
  destruct (Date_parse s) as [t|] eqn:Ht.
  - by apply daysRemaining_valid.
  - by apply daysRemaining_invalid.
Qed.

(** The status of every expiry date, by cases on the time left. *)
Lemma classify_spec (e : JS.Value) (now : Z) :
  classify Date_parse e now =
    match e with
    | JS.Str s =>
        if decide (s = "") then StNone
        else match Date_parse s with
             | Some t =>
                 if bool_decide (t ≤ now) then StExpired
                 else if bool_decide (t - now ≤ 259200000) then StExpiring
                 else StFresh
             | None => StFresh
             end
    | _ => StNone
    end.
Proof.
  rewrite classify_days, daysRemaining_spec.
  destruct e as [| |s]; try reflexivity.
  destruct (decide (s = "")); [reflexivity|].
  destruct (Date_parse s) as [t|]; [|reflexivity].
  pose proof (ceiling_day_bounds t now) as Hk. cbv zeta in Hk.
  set (k := Qceiling _) in *. rewrite !le_of_Z.
  repeat case_bool_decide; try reflexivity; lia.
Qed.

End Aging.

(** X1. As the clock advances an expiry date only ages: once expired it
    stays expired, what is fresh later was fresh before, and it is without
    status at one time exactly if it is at the other. *)
Theorem status_only_ages (Date_parse : string → option Z)
    (e : JS.Value) (w1 w2 : Runtime) :
  clock w1 ≤ clock w2 →
  (evalM (getExpiryStatus Date_parse e) w1 = StExpired →
   evalM (getExpiryStatus Date_parse e) w2 = StExpired)
  ∧ (evalM (getExpiryStatus Date_parse e) w2 = StFresh →
     evalM (getExpiryStatus Date_parse e) w1 = StFresh)
  ∧ (evalM (getExpiryStatus Date_parse e) w1 = StNone
     ↔ evalM (getExpiryStatus Date_parse e) w2 = StNone).
Proof.
  intros Hc. unfold evalM. rewrite !getExpiryStatus_run. cbn [fst].
  rewrite !classify_spec.
  destruct e as [| |s]; try done.
  destruct (decide (s = "")); [done|].
  destruct (Date_parse s) as [t|]; [|done].
  repeat case_bool_decide; repeat split; intros; try done; lia.
Qed.

Lemma status_only_ages_witness :
  clock (initial 1736337600000) ≤ clock (initial 1736600000000)
  ∧ (evalM (getExpiryStatus ISO.parse (JS.Str "2025-01-08")) (initial 1736337600000)
       = StExpired →
     evalM (getExpiryStatus ISO.parse (JS.Str "2025-01-08")) (initial 1736600000000)
       = StExpired).
Proof.
  assert (clock (initial 1736337600000) ≤ clock (initial 1736600000000)) as H
    by (vm_compute; discriminate).
  split; [exact H|].
  apply (status_only_ages ISO.parse (JS.Str "2025-01-08")
           (initial 1736337600000) (initial 1736600000000) H).
Defined.

(** X2. A date that parses is expired exactly when its time value is not
    after the clock reading, expiring exactly when it lies at most three
    days (259200000 ms) ahead, and fresh exactly when it lies further
    ahead. *)
Theorem status_windows (Date_parse : string → option Z)
    (s : string) (t : Z) (w : Runtime) :
  s ≠ "" → Date_parse s = Some t →
  (evalM (getExpiryStatus Date_parse (JS.Str s)) w = StExpired ↔ t ≤ clock w)
  ∧ (evalM (getExpiryStatus Date_parse (JS.Str s)) w = StExpiring
     ↔ 0 < t - clock w ≤ 3 * 24 * 60 * 60 * 1000)
  ∧ (evalM (getExpiryStatus Date_parse (JS.Str s)) w = StFresh
     ↔ 3 * 24 * 60 * 60 * 1000 < t - clock w).
Proof.
  intros Hs Ht. unfold evalM. rewrite !getExpiryStatus_run. cbn [fst].
  rewrite classify_spec, decide_False, Ht by done.
  repeat case_bool_decide; repeat split; intros; try done; lia.
Qed.

Lemma status_windows_witness :
  "2025-01-10" ≠ "" ∧ ISO.parse "2025-01-10" = Some 1736467200000
  ∧ (evalM (getExpiryStatus ISO.parse (JS.Str "2025-01-10")) (initial 1736337600000)
       = StExpiring
     ↔ 0 < 1736467200000 - clock (initial 1736337600000) ≤ 3 * 24 * 60 * 60 * 1000).
Proof.
  split; [discriminate|]. split; [reflexivity|].
  apply (status_windows ISO.parse "2025-01-10" 1736467200000
           (initial 1736337600000)); [discriminate | reflexivity].
Defined.

(** X3. Whole days shift the day count by as much: [n] days later on the
    clock the count of a date that parses is [n] lower, and a date [n]
    days later has a count [n] higher. *)
Theorem days_shift (Date_parse : string → option Z)
    (s s' : string) (t k n : Z) (w w' : Runtime) :
  s ≠ "" → Date_parse s = Some t →
  evalM (getDaysUntilExpiry Date_parse (JS.Str s)) w = Some (JS.of_Z k) →
  (clock w' = clock w + 86400000 * n →
   evalM (getDaysUntilExpiry Date_parse (JS.Str s)) w' = Some (JS.of_Z (k - n)))
  ∧ (s' ≠ "" → Date_parse s' = Some (t + 86400000 * n) →
     evalM (getDaysUntilExpiry Date_parse (JS.Str s')) w = Some (JS.of_Z (k + n))).
Proof.
  intros Hs Ht. unfold evalM. rewrite !getDaysUntilExpiry_run. cbn [fst].
  rewrite (daysRemaining_valid _ _ _ _ Hs Ht).
  pose proof (ceiling_day_bounds t (clock w)) as Hk. cbv zeta in Hk.
  set (k0 := Qceiling _) in *. intros [= Hk0]. subst k.
  split.
  - intros Hc. rewrite (daysRemaining_valid _ _ _ _ Hs Ht).
    pose proof (ceiling_day_bounds t (clock w')) as Hk'. cbv zeta in Hk'.
    set (k' := Qceiling _) in *. do 2 f_equal. lia.
  - intros Hs' Ht'. rewrite (daysRemaining_valid _ _ _ _ Hs' Ht').
    pose proof (ceiling_day_bounds (t + 86400000 * n) (clock w)) as Hk'.
    cbv zeta in Hk'. set (k' := Qceiling _) in *. do 2 f_equal. lia.
Qed.

Lemma days_shift_witness :
  "2025-01-10" ≠ "" ∧ ISO.parse "2025-01-10" = Some 1736467200000
  ∧ evalM (getDaysUntilExpiry ISO.parse (JS.Str "2025-01-10")) (initial 1736337600000)
      = Some (JS.of_Z 2)
  ∧ clock (initial 1736510400000) = clock (initial 1736337600000) + 86400000 * 2
  ∧ evalM (getDaysUntilExpiry ISO.parse (JS.Str "2025-01-10")) (initial 1736510400000)
      = Some (JS.of_Z (2 - 2)).
Proof.
  assert (evalM (getDaysUntilExpiry ISO.parse (JS.Str "2025-01-10"))
            (initial 1736337600000) = Some (JS.of_Z 2)) as Hd by reflexivity.
  assert (clock (initial 1736510400000)
          = clock (initial 1736337600000) + 86400000 * 2) as Hc by reflexivity.
  split; [discriminate|]. split; [reflexivity|]. split; [exact Hd|].
  split; [exact Hc|].
  apply (days_shift ISO.parse "2025-01-10" "2025-01-10" 1736467200000 2 2
           (initial 1736337600000) (initial 1736510400000));
    [discriminate | reflexivity | exact Hd | exact Hc].
Defined.

(** X4. At one clock reading the day counts follow the expiry dates: a
    date that is not later has a count that is not higher. *)
Theorem days_monotone (Date_parse : string → option Z)
    (s1 s2 : string) (t1 t2 k1 k2 : Z) (w : Runtime) :
  s1 ≠ "" → s2 ≠ "" → Date_parse s1 = Some t1 → Date_parse s2 = Some t2 →
  evalM (getDaysUntilExpiry Date_parse (JS.Str s1)) w = Some (JS.of_Z k1) →
  evalM (getDaysUntilExpiry Date_parse (JS.Str s2)) w = Some (JS.of_Z k2) →
  t1 ≤ t2 → k1 ≤ k2.
Proof.
  intros Hs1 Hs2 Ht1 Ht2. unfold evalM. rewrite !getDaysUntilExpiry_run. cbn [fst].
  rewrite (daysRemaining_valid _ _ _ _ Hs1 Ht1), (daysRemaining_valid _ _ _ _ Hs2 Ht2).
  pose proof (ceiling_day_bounds t1 (clock w)) as H1.
  pose proof (ceiling_day_bounds t2 (clock w)) as H2. cbv zeta in H1, H2.
  intros [= E1] [= E2]. lia.
Qed.

Lemma days_monotone_witness :
  "2025-01-10" ≠ "" ∧ "2025-01-12" ≠ ""
  ∧ ISO.parse "2025-01-10" = Some 1736467200000
  ∧ ISO.parse "2025-01-12" = Some 1736640000000
  ∧ 1736467200000 ≤ 1736640000000 ∧ 2 ≤ 4.
Proof.
  split; [discriminate|]. split; [discriminate|].
  split; [reflexivity|]. split; [reflexivity|].
  assert (1736467200000 ≤ 1736640000000) as Hle by (vm_compute; discriminate).
  split; [exact Hle|].
  apply (days_monotone ISO.parse "2025-01-10" "2025-01-12"
           1736467200000 1736640000000 2 4 (initial 1736337600000));
    [discriminate | discriminate | reflexivity | reflexivity
    | reflexivity | reflexivity | exact Hle].
Defined.

(** ** The expiry badge and the share text *)

Section CardFacts.

Variable Date_parse : string → option Z.

(** The badge reads the status and the day count at one clock reading and
    leaves the runtime alone. *)
Lemma ExpiryBadge_run (e : JS.Value) (w : Runtime) :
  ExpiryBadge Date_parse e w =
    (badgeConfig (daysRemaining Date_parse e (clock w))
       (classify Date_parse e (clock w)), w).
Proof.
  unfold ExpiryBadge, mbind, M_bind.
  rewrite getExpiryStatus_run, getDaysUntilExpiry_run.
  destruct (classify Date_parse e (clock w)); reflexivity.
Qed.

Lemma shareItem_run (navigator_share : bool) (href : string)
    (item : StoredItem) (w : Runtime) :
  shared_text (evalM (shareItem Date_parse navigator_share href item) w) =
    "I have surplus " +:+ stored_name item +:+ " available! Expires in "
    +:+ JSLib.ToString_days (daysRemaining Date_parse (stored_expiry_date item) (clock w))
    +:+ (if navigator_share then " days." else " days. Check out SmartKitchen app!").
Proof.
  unfold evalM, shareItem, mbind, M_bind.
  destruct navigator_share; rewrite getDaysUntilExpiry_run; reflexivity.
Qed.

Lemma ToString_days_of_Z (k : Z) :
  JSLib.ToString_days (Some (JS.of_Z k)) = pretty k.
Proof. unfold JSLib.ToString_days, JS.of_Z. by rewrite Qceiling_Z. Qed.

End CardFacts.

(** X5. The badge is missing exactly for an absent expiry date
    ([undefined], [null], the empty string).  For a non-empty string that
    is no date it is the green badge of a fresh item and reads
    "NaN days left".  Rendering it changes nothing in the runtime. *)
Theorem ExpiryBadge_absent_or_invalid (Date_parse : string → option Z)
    (e : JS.Value) (w : Runtime) :
  (evalM (ExpiryBadge Date_parse e) w = None
     ↔ e = JS.Undefined ∨ e = JS.Null ∨ e = JS.Str "")
  ∧ (∀ s : string, e = JS.Str s → s ≠ "" → Date_parse s = None →
       evalM (ExpiryBadge Date_parse e) w
       = Some (mkBadge "badge-success" FaCheckCircle "NaN days left"))
  ∧ execM (ExpiryBadge Date_parse e) w = w.
Proof.
  unfold evalM, execM. rewrite ExpiryBadge_run. cbn [fst snd].
  rewrite classify_spec, daysRemaining_spec.
  split; [|split; [|reflexivity]].
  - destruct e as [| |s]; cbn; [naive_solver..|].
    destruct (decide (s = "")) as [->|Hs]; [naive_solver|].
    split; [|intros [|[|[=]]]; done].
    destruct (Date_parse s); repeat case_bool_decide; done.
  - intros s -> Hs Hp. destruct (decide (s = "")); [done|].
    rewrite Hp. reflexivity.
Qed.

Lemma ExpiryBadge_absent_or_invalid_witness :
  JS.Str "tomorrow" = JS.Str "tomorrow" ∧ "tomorrow" ≠ ""
  ∧ ISO.parse "tomorrow" = None
  ∧ evalM (ExpiryBadge ISO.parse (JS.Str "tomorrow")) (initial sample_now)
    = Some (mkBadge "badge-success" FaCheckCircle "NaN days left").
Proof.
  split; [reflexivity|]. split; [discriminate|]. split; [reflexivity|].
  apply (ExpiryBadge_absent_or_invalid ISO.parse (JS.Str "tomorrow")
           (initial sample_now) : _ ∧ _ ∧ _) with (s := "tomorrow");
    [reflexivity | discriminate | reflexivity].
Defined.



(** X7. The share text, on either channel, is "I have surplus [name]
    available! Expires in [d] days." (the clipboard text goes on with
    " Check out SmartKitchen app!"), where [d] is "null" for an item
    without expiry date, "NaN" for an expiry date that is no date, and
    otherwise the ceiling of the days left, zero or negative for an
    expired item. *)
Theorem shareItem_text (Date_parse : string → option Z)
    (navigator_share : bool) (href : string) (item : StoredItem) (w : Runtime) :
  ∃ d : string,
    shared_text (evalM (shareItem Date_parse navigator_share href item) w) =
      "I have surplus " +:+ stored_name item +:+ " available! Expires in " +:+ d
      +:+ (if navigator_share then " days." else " days. Check out SmartKitchen app!")
    ∧ (JS.truthy (stored_expiry_date item) = false → d = "null")
    ∧ (∀ s, stored_expiry_date item = JS.Str s → s ≠ "" →
            Date_parse s = None → d = "NaN")
    ∧ (∀ s t, stored_expiry_date item = JS.Str s → s ≠ "" →
              Date_parse s = Some t →
              ∃ k : Z, 86400000 * (k - 1) < t - clock w ≤ 86400000 * k
                       ∧ d = pretty k).
Proof.
  eexists. split; [apply shareItem_run|].
  split; [|split].
  - intros Hf. by rewrite daysRemaining_falsy.
  - intros s -> Hs Hp. by rewrite (daysRemaining_invalid _ _ _ Hs Hp).
  - intros s t -> Hs Hp. rewrite (daysRemaining_valid _ _ _ _ Hs Hp).
    pose proof (ceiling_day_bounds t (clock w)) as Hk. cbv zeta in Hk.
    set (k := Qceiling _) in *. exists k. split; [exact Hk|].
    apply ToString_days_of_Z.
Qed.

Lemma shareItem_text_witness :
  JS.truthy (stored_expiry_date (mkStored "item-3" "Rice" 1 "kg" "pantry" JS.Null JS.Null))
    = false
  ∧ shared_text
      (evalM (shareItem ISO.parse false "https://kitchen.example/"
                (mkStored "item-3" "Rice" 1 "kg" "pantry" JS.Null JS.Null))
         (initial sample_now))
    = "I have surplus Rice available! Expires in null days. Check out SmartKitchen app!".
Proof.
  split; [reflexivity|].
  destruct (shareItem_text ISO.parse false "https://kitchen.example/"
              (mkStored "item-3" "Rice" 1 "kg" "pantry" JS.Null JS.Null)
              (initial sample_now)) as (d & Htext & Hnull & _).
  rewrite Htext, (Hnull eq_refl). reflexivity.
Defined.

(** ** Timers across mounts *)

Lemma mountEffect_run_any (w : Runtime) :
  mountEffect w =
    (clearInterval (nextTimerId w),
     {| clock := clock w;
        timers := timers w ++ [mkTimer (nextTimerId w) CbFetchNotifications 300000
                                 (clock w + 300000)];
        nextTimerId := S (nextTimerId w);
        requests :=
          requests w
          ++ [(clock w, "/api/inventory"); (clock w, "/api/recipes");
              (clock w, "/api/challenges"); (clock w, "/api/deals");
              (clock w, "/api/waste"); (clock w, "/api/notifications/expiring")] |}).
Proof.
  unfold mountEffect, mbind, M_bind, fetchInventory, fetchRecipes, fetchChallenges,
    fetchDeals, fetchWasteItems, fetchNotifications, api_get, setInterval, mret, M_ret.
  cbn [clock timers nextTimerId requests]. rewrite <- !app_assoc. reflexivity.
Qed.

Lemma filter_other_handles (h : nat) (ts : list Timer) :
  Forall (λ t, (timerId t < h)%nat) ts →
  filter (λ t, timerId t ≠ h) ts = ts.
Proof.
  induction 1 as [|t ts Ht _ IH]; [reflexivity|].
  rewrite filter_cons_True by lia. by rewrite IH.
Qed.

(** X8. The cleanup removes the timer its own mount set and no other: on
    a runtime whose handles were all issued by [setInterval], unmounting
    restores the timer table as it was before the mount, however many
    timers it held.  The mount and the cleanup keep the handles issued. *)
Theorem mount_cleanup_restores_timers (w : Runtime) :
  handles_issued w →
  timers (execM (evalM mountEffect w) (execM mountEffect w)) = timers w
  ∧ handles_issued (execM mountEffect w)
  ∧ handles_issued (execM (evalM mountEffect w) (execM mountEffect w)).
Proof.
  unfold handles_issued, execM, evalM. intros Hw.
  rewrite mountEffect_run_any. cbn [fst snd clearInterval timers nextTimerId].
  assert (filter (λ t, timerId t ≠ nextTimerId w)
            (timers w ++ [mkTimer (nextTimerId w) CbFetchNotifications 300000
                            (clock w + 300000)]) = timers w) as Hf.
  { rewrite filter_app, (filter_other_handles _ _ Hw).
    rewrite filter_cons_False by (cbn; intros H; by apply H).
    by rewrite filter_nil, app_nil_r. }
  split; [exact Hf|]. split.
  - apply Forall_app. split.
    + eapply Forall_impl; [exact Hw|]. cbn. lia.
    + repeat constructor.
  - rewrite Hf. eapply Forall_impl; [exact Hw|]. cbn. lia.
Qed.

Lemma mount_cleanup_restores_timers_witness :
  handles_issued (execM mountEffect (initial sample_now))
  ∧ timers (execM (evalM mountEffect (execM mountEffect (initial sample_now)))
              (execM mountEffect (execM mountEffect (initial sample_now))))
    = timers (execM mountEffect (initial sample_now)).
Proof.
  assert (handles_issued (execM mountEffect (initial sample_now))) as H.
  { apply (mount_cleanup_restores_timers (initial sample_now)). constructor. }
  split; [exact H|].
  apply (mount_cleanup_restores_timers (execM mountEffect (initial sample_now)) H).
Defined.

(** ** The simulated barcode scan *)



(** ** The date the edit button puts into the form *)

Lemma append_cons (a : ascii) (s r : string) :
  String a s +:+ r = String a (s +:+ r).
Proof. reflexivity. Qed.

Lemma append_nil_r (s : string) : s +:+ "" = s.
Proof. induction s as [|a s IH]; [reflexivity|]. by rewrite append_cons, IH. Qed.

Lemma append_assoc (a b c : string) : (a +:+ b) +:+ c = a +:+ (b +:+ c).
Proof. induction a as [|x a IH]; [reflexivity|]. by rewrite !append_cons, IH. Qed.

Lemma occurs_append (c : ascii) (a b : string) :
  occurs c a = false → occurs c b = false → occurs c (a +:+ b) = false.
Proof.
  intros Ha Hb. induction a as [|x a IH]; [exact Hb|].
  rewrite append_cons. cbn in *. apply orb_false_iff in Ha as [-> Ha]. by apply IH.
Qed.

Lemma split_head_app (c : ascii) (pre r : string) :
  occurs c pre = false →
  JSLib.split_head c (pre +:+ r) = pre +:+ JSLib.split_head c r.
Proof.
  induction pre as [|a pre IH]; [reflexivity|]. rewrite !append_cons. cbn.
  intros [Ha Hpre]%orb_false_iff. rewrite Ha. f_equal. by apply IH.
Qed.





(** *** ISO strings lose their time of day *)

Lemma digits_inv (n : nat) (s : string) (v : Z) (r : string) :
  ISO.digits n s = Some (v, r) →
  ∃ pre, s = pre +:+ r ∧ occurs "T" pre = false
         ∧ (∀ r', ISO.digits n (pre +:+ r') = Some (v, r'))
         ∧ 0 ≤ v < 10 ^ Z.of_nat n.
Proof.
  revert s v r. induction n as [|n IH]; intros s v r.
  - intros [= <- <-]. exists "". repeat split; lia.
  - cbn [ISO.digits]. destruct s as [|c s]; [discriminate|].
    destruct (Ascii.is_nat c) as [d|] eqn:Hc; [|discriminate]. cbn.
    destruct (ISO.digits n s) as [[v' r']|] eqn:Hn; [|discriminate]. cbn.
    intros [= <- <-]. destruct (IH _ _ _ Hn) as (pre & -> & Hpre & Hre & Hv).
    exists (String c pre). split; [reflexivity|]. split; [|split].
    + cbn. rewrite Hpre.
      destruct c as [[] [] [] [] [] [] [] []]; try discriminate; reflexivity.
    + intros r0. rewrite append_cons. cbn. rewrite Hc. cbn. rewrite Hre. reflexivity.
    + assert (0 ≤ Z.of_nat d ≤ 9) as Hd.
      { destruct c as [[] [] [] [] [] [] [] []]; try discriminate;
          injection Hc as <-; lia. }
      rewrite Nat2Z.inj_succ, Z.pow_succ_r by lia. nia.
Qed.

Lemma expect_inv (c : ascii) (s r : string) :
  ISO.expect c s = Some r → s = String c r.
Proof.
  destruct s as [|a s]; [discriminate|]. cbn.
  destruct (Ascii.eqb c a) eqn:E; [|discriminate].
  apply Ascii.eqb_eq in E as ->. by intros [= ->].
Qed.

Lemma time_of_day_bounds (s : string) (tod : Z) :
  ISO.time_of_day s = Some tod → 0 ≤ tod < 86400000.
Proof.
  unfold ISO.time_of_day.
  destruct (ISO.digits 2 s) as [[hh s1]|] eqn:Hhh; [|discriminate]. cbn [mbind option_bind].
  destruct (ISO.expect ":" s1) as [s2|]; [|discriminate]. cbn [mbind option_bind].
  destruct (ISO.digits 2 s2) as [[mm s3]|] eqn:Hmm; [|discriminate]. cbn [mbind option_bind].
  destruct (ISO.expect ":" s3) as [s4|]; [|discriminate]. cbn [mbind option_bind].
  destruct (ISO.digits 2 s4) as [[ss s5]|] eqn:Hss; [|discriminate]. cbn [mbind option_bind].
  apply digits_inv in Hhh as (_ & _ & _ & _ & Hhh).
  apply digits_inv in Hmm as (_ & _ & _ & _ & Hmm).
  apply digits_inv in Hss as (_ & _ & _ & _ & Hss).
  assert (∀ ms s6, 0 ≤ ms < 1000 →
            (s7 ← ISO.expect "Z" s6;
             if String.eqb s7 "" && (hh <? 24) && (mm <? 60) && (ss <? 60)
             then Some (((hh * 60 + mm) * 60 + ss) * 1000 + ms) else None)
            = Some tod → 0 ≤ tod < 86400000) as Hend.
  { intros ms s6 Hms. destruct (ISO.expect "Z" s6) as [s7|]; [|discriminate]. cbn [mbind option_bind].
    destruct (String.eqb s7 ""); [|discriminate].
    destruct (Z.ltb_spec hh 24); [|discriminate].
    destruct (Z.ltb_spec mm 60); [|discriminate].
    destruct (Z.ltb_spec ss 60); [|discriminate].
    cbn [andb]. intros [= <-]. lia. }
  destruct (ISO.expect "." s5) as [s6|].
  - destruct (ISO.digits 3 s6) as [[ms s7]|] eqn:Hms; [|discriminate]. cbn [mbind option_bind].
    apply digits_inv in Hms as (_ & _ & _ & _ & Hms).
    apply Hend. change (10 ^ Z.of_nat 3) with 1000 in Hms. exact Hms.
  - cbn [mbind option_bind]. apply Hend. lia.
Qed.

(** An ISO string is a date of ten characters, none of them "T", that
    parses to a midnight, alone or followed by "T" and a time of day. *)
Lemma parse_inv (s : string) (t : Z) :
  ISO.parse s = Some t →
  ∃ date rest day,
    s = date +:+ rest ∧ occurs "T" date = false
    ∧ ISO.parse date = Some (day * 86400000)
    ∧ ((rest = "" ∧ t = day * 86400000)
       ∨ ∃ r tod, rest = String "T" r ∧ 0 ≤ tod < 86400000
                  ∧ t = day * 86400000 + tod).
Proof.
  unfold ISO.parse at 1.
  destruct (ISO.digits 4 s) as [[y s1]|] eqn:Hy; [|discriminate]. cbn [mbind option_bind].
  destruct (ISO.expect "-" s1) as [s2|] eqn:H1; [|discriminate]. cbn [mbind option_bind].
  destruct (ISO.digits 2 s2) as [[m s3]|] eqn:Hm; [|discriminate]. cbn [mbind option_bind].
  destruct (ISO.expect "-" s3) as [s4|] eqn:H2; [|discriminate]. cbn [mbind option_bind].
  destruct (ISO.digits 2 s4) as [[d s5]|] eqn:Hd; [|discriminate]. cbn [mbind option_bind].
  destruct ((1 <=? m) && (m <=? 12) && (1 <=? d) && (d <=? ISO.days_in_month y m))
    eqn:Hok; [|discriminate].
  apply digits_inv in Hy as (py & -> & Hpy & Hry & _).
  apply expect_inv in H1 as ->.
  apply digits_inv in Hm as (pm & -> & Hpm & Hrm & _).
  apply expect_inv in H2 as ->.
  apply digits_inv in Hd as (pd & -> & Hpd & Hrd & _).
  intros Hrest.
  exists (py +:+ String "-" (pm +:+ String "-" pd)), s5, (ISO.days_from_civil y m d).
  split; [|split; [|split]].
  - rewrite append_assoc, append_cons. by rewrite append_assoc.
  - apply occurs_append; [exact Hpy|]. cbn.
    apply occurs_append; [exact Hpm|]. cbn. exact Hpd.
  - unfold ISO.parse.
    rewrite Hry. cbn [mbind option_bind ISO.expect].
    rewrite Ascii.eqb_refl. cbn [mbind option_bind].
    rewrite Hrm. cbn [mbind option_bind ISO.expect].
    rewrite Ascii.eqb_refl. cbn [mbind option_bind].
    rewrite <- (append_nil_r pd), Hrd. cbn [mbind option_bind].
    rewrite Hok. reflexivity.
  - destruct s5 as [|c r].
    + left. split; [reflexivity|]. by injection Hrest as <-.
    + right. destruct (Ascii.eqb c "T") eqn:Hc; [|discriminate].
      apply Ascii.eqb_eq in Hc as ->.
      destruct (ISO.time_of_day r) as [tod|] eqn:Htod; [|discriminate].
      cbn [mbind option_bind] in Hrest. injection Hrest as <-.
      exists r, tod. split; [reflexivity|]. split; [|reflexivity].
      by apply time_of_day_bounds in Htod.
Qed.

(** X11. For an expiry date in ISO form the edit button keeps the date
    and drops the time of day: the date shown parses to the midnight
    before, less than a day earlier, so at any clock reading its day
    count is the item's or one lower, never higher. *)
Theorem edit_drops_time_of_day (s : string) (t : Z) (w : Runtime) :
  ISO.parse s = Some t →
  ∃ (s0 : string) (t0 : Z),
    edit_expiry_date (JS.Str s) = JS.Str s0
    ∧ ISO.parse s0 = Some t0
    ∧ t0 mod 86400000 = 0
    ∧ t0 ≤ t < t0 + 86400000
    ∧ ∃ k k0 : Z,
        evalM (getDaysUntilExpiry ISO.parse (JS.Str s)) w = Some (JS.of_Z k)
        ∧ evalM (getDaysUntilExpiry ISO.parse (JS.Str s0)) w = Some (JS.of_Z k0)
        ∧ k - 1 ≤ k0 ≤ k.
Proof.
  intros Hp.
  destruct (parse_inv s t Hp) as (date & rest & day & -> & Hocc & Hdate & Hrest).
  assert (date ≠ "") as Hne by (intros ->; discriminate Hdate).
  assert (date +:+ rest ≠ "") as Hne'.
  { destruct date; [done|discriminate]. }
  assert (JSLib.split_head "T" (date +:+ rest) = date) as Hhead.
  { rewrite split_head_app by done.
    destruct Hrest as [[-> _]|(r & tod & -> & _)]; cbn;
      apply append_nil_r. }
  exists date, (day * 86400000).
  assert (day * 86400000 ≤ t < day * 86400000 + 86400000) as Ht.
  { destruct Hrest as [[_ ->]|(r & tod & _ & Htod & ->)]; lia. }
  split; [|split; [exact Hdate|split; [apply Z_mod_mult|split; [exact Ht|]]]].
  - destruct date; [done|]. rewrite append_cons in Hhead |- *.
    cbn [edit_expiry_date JS.truthy String.eqb negb]. by rewrite Hhead.
  - unfold evalM. rewrite !getDaysUntilExpiry_run. cbn [fst].
    rewrite (daysRemaining_valid _ _ _ _ Hne' Hp),
      (daysRemaining_valid _ _ _ _ Hne Hdate).
    pose proof (ceiling_day_bounds t (clock w)) as Hk.
    pose proof (ceiling_day_bounds (day * 86400000) (clock w)) as Hk0.
    cbv zeta in Hk, Hk0.
    eexists _, _. split; [reflexivity|]. split; [reflexivity|]. lia.
Qed.

Lemma edit_drops_time_of_day_witness :
  ISO.parse "2025-01-10T15:00:00.000Z" = Some 1736521200000
  ∧ edit_expiry_date (JS.Str "2025-01-10T15:00:00.000Z") = JS.Str "2025-01-10"
  ∧ evalM (getExpiryStatus ISO.parse (JS.Str "2025-01-10T15:00:00.000Z"))
      (initial 1736510400000) = StExpiring
  ∧ evalM (getExpiryStatus ISO.parse (JS.Str "2025-01-10")) (initial 1736510400000)
    = StExpired
  ∧ ∃ (s0 : string) (t0 : Z),
      edit_expiry_date (JS.Str "2025-01-10T15:00:00.000Z") = JS.Str s0
      ∧ ISO.parse s0 = Some t0
      ∧ t0 mod 86400000 = 0
      ∧ t0 ≤ 1736521200000 < t0 + 86400000
      ∧ ∃ k k0 : Z,
          evalM (getDaysUntilExpiry ISO.parse (JS.Str "2025-01-10T15:00:00.000Z"))
            (initial 1736510400000) = Some (JS.of_Z k)
          ∧ evalM (getDaysUntilExpiry ISO.parse (JS.Str s0)) (initial 1736510400000)
            = Some (JS.of_Z k0)
          ∧ k - 1 ≤ k0 ≤ k.
Proof.
  split; [reflexivity|]. split; [reflexivity|].
  split; [reflexivity|]. split; [reflexivity|].
  apply (edit_drops_time_of_day "2025-01-10T15:00:00.000Z" 1736521200000
           (initial 1736510400000)).
  reflexivity.
Defined.

(** ** The form handlers *)

Lemma trim_left_blank (s : string) : trim_left s = "" ↔ blank s = true.
Proof.
  induction s as [|c s IH]; [done|]. cbn.
  destruct (Ascii.is_space c); cbn; [exact IH | done].
Qed.

Lemma blank_trim_left (s : string) : blank (trim_left s) = blank s.
Proof.
  induction s as [|c s IH]; [reflexivity|]. cbn.
  destruct (Ascii.is_space c) eqn:Hc; cbn; [exact IH | by rewrite Hc].
Qed.

Lemma blank_rev_app (s1 s2 : string) :
  blank (String.rev_app s1 s2) = blank s1 && blank s2.
Proof.
  revert s2. induction s1 as [|c s1 IH]; intros s2; [reflexivity|]. cbn.
  rewrite IH. cbn. destruct (Ascii.is_space c), (blank s1); reflexivity.
Qed.

Lemma rev_app_empty (s1 s2 : string) :
  String.rev_app s1 s2 = "" ↔ s1 = "" ∧ s2 = "".
Proof.
  revert s2. induction s1 as [|c s1 IH]; intros s2; cbn.
  - split; [intros ->; done | intros [_ ->]; done].
  - rewrite IH. split; [intros [_ [=]] | intros [[=] _]].
Qed.

(** [trim] leaves nothing exactly of a string of white space. *)
Lemma trim_blank (s : string) : trim s = "" ↔ blank s = true.
Proof.
  unfold trim, String.rev. rewrite rev_app_empty, trim_left_blank.
  rewrite blank_rev_app, blank_trim_left. cbn. rewrite andb_true_r.
  split; [intros [H _]; exact H | intros H; done].
Qed.

Lemma trim_not_blank (s : string) : blank s = false → String.eqb (trim s) "" = false.
Proof.
  intros Hb. apply String.eqb_neq. rewrite trim_blank. congruence.
Qed.

Lemma handleAddItem_rejects (ok : bool) (a : App) :
  blank (name (itemForm a)) = true →
  runUI (handleAddItem ok) a
  = with_toasts (toasts a ++ [(ToastError, "Please enter item name")]) a.
Proof.
  intros Hb. apply trim_blank in Hb.
  unfold runUI, handleAddItem, mbind, UI_bind, render. rewrite Hb. reflexivity.
Qed.



(** What a submit with a name that is not blank does. *)
Lemma handleAddItem_accepts (ok : bool) (a : App) :
  blank (name (itemForm a)) = false →
  sent (runUI (handleAddItem ok) a)
  = sent a
    ++ [mkWrite
          (match selectedItem a with Some _ => PUT | None => POST end)
          (match selectedItem a with
           | Some item => "/api/inventory/" +:+ stored_id item
           | None => "/api/inventory"
           end)
          (ItemBody
             {| new_name := name (itemForm a);
                new_quantity := parseInt_field (quantity (itemForm a));
                new_unit := unit_ (itemForm a);
                new_category := category (itemForm a);
                new_expiry_date := expiry_date (itemForm a);
                new_barcode := barcode (itemForm a);
                new_added_date := JS.mkDate (JS.of_Z (clock (app_runtime a)));
                new_user_id := "default" |})]
  ∧ showAddModal (runUI (handleAddItem ok) a) = false
  ∧ itemForm (runUI (handleAddItem ok) a) = form_state itemForm_initial
  ∧ selectedItem (runUI (handleAddItem ok) a) = None
  ∧ scannedBarcode (runUI (handleAddItem ok) a) = ""
  ∧ requests (app_runtime (runUI (handleAddItem ok) a))
    = requests (app_runtime a)
      ++ (if ok then [(clock (app_runtime a), "/api/inventory")] else [])
  ∧ ∃ msg, toasts (runUI (handleAddItem ok) a)
           = toasts a ++ [(if ok then ToastSuccess else ToastError, msg)].
Proof.
  intros Hb. apply trim_not_blank in Hb.
  unfold runUI, handleAddItem, mbind, UI_bind, render. rewrite Hb.
  destruct a as [w inv rec form waste sel sb sam swm ts snt].
  cbn [itemForm selectedItem app_runtime sent toasts].
  destruct sel as [item|], ok; cbn; rewrite ?app_nil_r; repeat split; eauto.
Qed.

(** X13. Submitting the item form with a name that is not blank sends
    exactly one write: [PUT /api/inventory/{id}] when an item is selected,
    [POST /api/inventory] otherwise.  Its body carries the form's fields,
    the name as typed, the quantity through [parseInt], the clock reading
    as [added_date] and the user "default".  Whether the request succeeds
    or fails, the modal is then closed, the form is reset and the
    selection cleared; the inventory is fetched again only on success. *)
Theorem handleAddItem_submits (ok : bool) (a : App) :
  ascii_only (name (itemForm a)) = true →
  blank (name (itemForm a)) = false →
  sent (runUI (handleAddItem ok) a)
  = sent a
    ++ [mkWrite
          (match selectedItem a with Some _ => PUT | None => POST end)
          (match selectedItem a with
           | Some item => "/api/inventory/" +:+ stored_id item
           | None => "/api/inventory"
           end)
          (ItemBody
             {| new_name := name (itemForm a);
                new_quantity := parseInt_field (quantity (itemForm a));
                new_unit := unit_ (itemForm a);
                new_category := category (itemForm a);
                new_expiry_date := expiry_date (itemForm a);
                new_barcode := barcode (itemForm a);
                new_added_date := JS.mkDate (JS.of_Z (clock (app_runtime a)));
                new_user_id := "default" |})]
  ∧ showAddModal (runUI (handleAddItem ok) a) = false
  ∧ itemForm (runUI (handleAddItem ok) a) = form_state itemForm_initial
  ∧ selectedItem (runUI (handleAddItem ok) a) = None
  ∧ scannedBarcode (runUI (handleAddItem ok) a) = ""
  ∧ requests (app_runtime (runUI (handleAddItem ok) a))
    = requests (app_runtime a)
      ++ (if ok then [(clock (app_runtime a), "/api/inventory")] else [])
  ∧ ∃ msg, toasts (runUI (handleAddItem ok) a)
           = toasts a ++ [(if ok then ToastSuccess else ToastError, msg)].
Proof. intros _. apply handleAddItem_accepts. Qed.

Lemma handleAddItem_submits_witness :
  let a := mkApp (initial sample_now) [] []
             (mkItemFormState " Milk" (TextValue "2") "liters" "dairy"
                (JS.Str "2025-01-12") "")
             wasteForm_initial None "" true false [] [] in
  ascii_only (name (itemForm a)) = true
  ∧ blank (name (itemForm a)) = false
  ∧ sent (runUI (handleAddItem false) a)
    = [mkWrite POST "/api/inventory"
         (ItemBody (mkNewItem " Milk" (JS.of_Z 2) "liters" "dairy"
                      (JS.Str "2025-01-12") "" (JS.mkDate (JS.of_Z sample_now))
                      "default"))]
  ∧ itemForm (runUI (handleAddItem false) a) = form_state itemForm_initial.
Proof.
  intros a.
  assert (ascii_only (name (itemForm a)) = true) as Ha by reflexivity.
  assert (blank (name (itemForm a)) = false) as Hb by reflexivity.
  destruct (handleAddItem_submits false a Ha Hb) as (Hs & _ & Hf & _).
  split; [exact Ha|]. split; [exact Hb|].
  split; [rewrite Hs; reflexivity | exact Hf].
Defined.



(** X15. The item name of a waste record is the name of the first
    inventory item with the chosen id, and "Unknown" when no item has that
    id or when that first item's name is empty. *)
Theorem waste_item_name_lookup (inv : list StoredItem) (item_id : string) :
  (Forall (λ item, stored_id item ≠ item_id) inv →
   waste_item_name inv item_id = "Unknown")
  ∧ (∀ l1 item l2,
       inv = l1 ++ item :: l2 →
       Forall (λ x, stored_id x ≠ item_id) l1 →
       stored_id item = item_id →
       waste_item_name inv item_id
       = if decide (stored_name item = "") then "Unknown" else stored_name item).
Proof.
  assert (∀ l, Forall (λ x, stored_id x ≠ item_id) l →
               ∀ l', find (λ x, String.eqb (stored_id x) item_id) (l ++ l')
                     = find (λ x, String.eqb (stored_id x) item_id) l') as Hskip.
  { induction 1 as [|x l Hx _ IH]; intros l'; [reflexivity|]. cbn.
    apply String.eqb_neq in Hx. rewrite Hx. apply IH. }
  unfold waste_item_name. split.
  - intros Hall. rewrite <- (app_nil_r inv), (Hskip _ Hall). reflexivity.
  - intros l1 item l2 -> Hl1 Hid. rewrite (Hskip _ Hl1). cbn.
    apply String.eqb_eq in Hid. rewrite Hid. cbn.
    destruct (decide (stored_name item = "")) as [->|Hn]; [reflexivity|].
    apply String.eqb_neq in Hn. by rewrite Hn.
Qed.

Lemma waste_item_name_lookup_witness :
  let inv := [mkStored "item-1" "Eggs" 6 "pieces" "dairy" JS.Null JS.Null;
              mkStored "item-2" "Milk" 1 "liters" "dairy" JS.Null JS.Null] in
  Forall (λ item, stored_id item ≠ "") inv
  ∧ waste_item_name inv "" = "Unknown".
Proof.
  intros inv.
  assert (Forall (λ item, stored_id item ≠ "") inv) as H
    by (repeat constructor; discriminate).
  split; [exact H|].
  apply (waste_item_name_lookup inv ""), H.
Defined.

(** X16. Submitting the waste form checks nothing: it always sends one
    [POST /api/waste] with the chosen id, the quantity through [parseInt],
    the reason, the looked-up item name, the clock reading and the user
    "default".  Whether the request succeeds or fails, the modal is then
    closed and the form reset; the waste list is fetched again only on
    success, and the inventory shown is not touched. *)
Theorem handleAddWaste_submits (ok : bool) (a : App) :
  sent (runUI (handleAddWaste ok) a)
  = sent a
    ++ [mkWrite POST "/api/waste"
          (WasteBody
             {| wasted_item_id := waste_item_id (wasteForm a);
                wasted_quantity := parseInt_field (waste_quantity (wasteForm a));
                wasted_reason := waste_reason (wasteForm a);
                wasted_item_name :=
                  waste_item_name (inventory a) (waste_item_id (wasteForm a));
                wasted_date_discarded := JS.mkDate (JS.of_Z (clock (app_runtime a)));
                wasted_user_id := "default" |})]
  ∧ showWasteModal (runUI (handleAddWaste ok) a) = false
  ∧ wasteForm (runUI (handleAddWaste ok) a) = wasteForm_initial
  ∧ inventory (runUI (handleAddWaste ok) a) = inventory a
  ∧ requests (app_runtime (runUI (handleAddWaste ok) a))
    = requests (app_runtime a)
      ++ (if ok then [(clock (app_runtime a), "/api/waste")] else []).
Proof.
  destruct a as [w inv rec form waste sel sb sam swm ts snt].
  destruct ok; cbn; rewrite ?app_nil_r; repeat split.
Qed.

(** X17. When the request behind the Rescue Recipes button fails, the
    recipe list shown is emptied (and a toast raised), whereas a failed
    [fetchRecipes] leaves the list as it was; when either succeeds the
    list is replaced by the data received. *)
Theorem rescue_failure_clears_recipes (a : App) (data : list Recipe) :
  recipes (runUI (rescueRecipes None) a) = []
  ∧ toasts (runUI (rescueRecipes None) a)
    = toasts a ++ [(ToastError, "Failed to fetch expiring recipes")]
  ∧ recipes (runUI (fetchRecipes_done None) a) = recipes a
  ∧ recipes (runUI (rescueRecipes (Some data)) a) = data
  ∧ recipes (runUI (fetchRecipes_done (Some data)) a) = data.
Proof. destruct a. repeat split. Qed.

(** ** Quantities typed into a number input *)









(** ** The item modal over any sequence of events *)

Lemma dispatch_keeps_pristine (e : Event) (a : App) :
  closed_is_pristine a → closed_is_pristine (runUI (dispatch e) a).
Proof.
  unfold closed_is_pristine. intros Ha.
  destruct e as [|item| |ok|v|v|v|v|v];
    try (destruct a as [w inv rec form waste sel sb [] swm ts snt];
         cbn in *; first [discriminate | exact Ha | intros _; split; reflexivity]).
  destruct (showAddModal a) eqn:Hshow.
  - assert (runUI (dispatch (SubmitItem ok)) a = runUI (handleAddItem ok) a) as ->.
    { unfold runUI, dispatch, mbind, UI_bind, render. by rewrite Hshow. }
    destruct (blank (name (itemForm a))) eqn:Hb.
    + rewrite (handleAddItem_rejects ok a Hb).
      destruct a. cbn in *. congruence.
    + destruct (handleAddItem_accepts ok a Hb) as (_ & _ & Hf & Hs & _). done.
  - assert (runUI (dispatch (SubmitItem ok)) a = a) as ->.
    { unfold runUI, dispatch, mbind, UI_bind, render. by rewrite Hshow. }
    intros _. by apply Ha.
Qed.

(** X19. Over any sequence of clicks, edits, cancels, submits and input
    changes, starting from a state where it holds: whenever the item
    modal is closed, the form is pristine and no item is selected.  So an
    item added next, whatever was edited before, is sent as a new item:
    [POST /api/inventory] with the name typed and the form's defaults,
    never as an update of an item edited earlier. *)
Theorem closed_modal_is_pristine (es : list Event) (a : App) (v : string) (ok : bool) :
  closed_is_pristine a →
  closed_is_pristine (dispatch_all es a)
  ∧ (showAddModal (dispatch_all es a) = false →
     ascii_only v = true → blank v = false →
     sent (dispatch_all [ClickAdd; ChangeName v; SubmitItem ok] (dispatch_all es a))
     = sent (dispatch_all es a)
       ++ [mkWrite POST "/api/inventory"
             (ItemBody
                {| new_name := v;
                   new_quantity := JS.of_Z 1;
                   new_unit := "pieces";
                   new_category := "other";
                   new_expiry_date := JS.Str "";
                   new_barcode := "";
                   new_added_date :=
                     JS.mkDate (JS.of_Z (clock (app_runtime (dispatch_all es a))));
                   new_user_id := "default" |})]).
Proof.
  intros Ha.
  assert (closed_is_pristine (dispatch_all es a)) as Hinv.
  { unfold dispatch_all. revert a Ha.
    induction es as [|e es IH]; intros a Ha; [exact Ha|].
    cbn [foldl]. apply IH. by apply dispatch_keeps_pristine. }
  split; [exact Hinv|].
  intros Hclosed _ Hv. destruct (Hinv Hclosed) as [Hform Hsel].
  destruct (dispatch_all es a) as [w inv rec form waste sel sb sam swm ts snt].
  cbn in Hclosed, Hform, Hsel. subst sam form sel.
  set (b := {| app_runtime := w; inventory := inv; recipes := rec;
               itemForm := change_field (ChangeName v) (form_state itemForm_initial);
               wasteForm := waste; selectedItem := None; scannedBarcode := sb;
               showAddModal := true; showWasteModal := swm;
               toasts := ts; sent := snt |}).
  change (dispatch_all [ClickAdd; ChangeName v; SubmitItem ok] _)
    with (runUI (handleAddItem ok) b).
  destruct (handleAddItem_accepts ok b Hv) as [Hs _]. rewrite Hs. reflexivity.
Qed.

Lemma closed_modal_is_pristine_witness :
  let item := mkStored "item-2" "Milk" 1 "liters" "dairy"
                (JS.Str "2025-01-12T09:30:00.000Z") JS.Null in
  let es := [ClickEdit item; ChangeQuantity "3"; ClickCancel] in
  closed_is_pristine (app_initial sample_now)
  ∧ showAddModal (dispatch_all es (app_initial sample_now)) = false
  ∧ ascii_only "Butter" = true
  ∧ blank "Butter" = false
  ∧ sent (dispatch_all [ClickAdd; ChangeName "Butter"; SubmitItem true]
            (dispatch_all es (app_initial sample_now)))
    = [mkWrite POST "/api/inventory"
         (ItemBody (mkNewItem "Butter" (JS.of_Z 1) "pieces" "other" (JS.Str "") ""
                      (JS.mkDate (JS.of_Z sample_now)) "default"))].
Proof.
  intros item es.
  assert (closed_is_pristine (app_initial sample_now)) as H0
    by (intros _; split; reflexivity).
  assert (showAddModal (dispatch_all es (app_initial sample_now)) = false) as H1
    by reflexivity.
  assert (ascii_only "Butter" = true) as Ha by reflexivity.
  assert (blank "Butter" = false) as H2 by reflexivity.
  split; [exact H0|]. split; [exact H1|]. split; [exact Ha|]. split; [exact H2|].
  rewrite (proj2 (closed_modal_is_pristine es (app_initial sample_now)
                    "Butter" true H0) H1 Ha H2).
  reflexivity.
Defined.
